(** * USD to ZAR exchange rates: a shallow embedding of [Final_ExchangeRates.py]

    The script fetches the ECB reference-rate feed, derives the USD to ZAR
    cross rate through EUR, spreads it over a total calendar-day axis, fills
    the gaps, averages per month, joins the averages back onto the days,
    writes a CSV file and plots.

    Modelling conventions.
    - A Python [float] is an exact rational ([Qc], canonical fractions with
      Leibniz equality); [NaN] in a pandas float column is [None]. The
      rounding of binary64, infinities and a [NaN] rate in the feed are not
      modelled.
    - A [datetime64] value is the day number since 1970-01-01 (all
      timestamps of the script are at midnight).
    - A Python exception is an [Err] result.
    - The pandas and numpy calls of the script are embedded with the
      behaviour of the arguments the script passes (defaults included).
    - Fetching, XML parsing, [float(...)] and [pd.to_datetime] on one
      string are inputs: the status code, the list of cubes with their
      rates, and a function from date strings to day numbers. *)

From Stdlib Require Import ZArith QArith Qcanon.
From stdpp Require Import base numbers option list strings pretty gmap sorting.

Open Scope Z_scope.

(** ** Exceptions and results *)

Inductive exn :=
| ZeroDivisionError
| KeyError (label : string)
| ValueError
| TypeError
| NameError (name : string).

Inductive result (A : Type) :=
| Ok (a : A)
| Err (e : exn).
Arguments Ok {A} a.
Arguments Err {A} e.

Global Instance result_bind : MBind result := λ A B k m,
  match m with Ok a => k a | Err e => Err e end.
Global Instance result_ret : MRet result := λ A a, Ok a.

(** ** Floats *)

Abbreviation float := Qc.

(** [a / b] on Python floats: a zero divisor raises. *)
Definition py_truediv (a b : float) : result float :=
  if decide (b = 0%Qc) then Err ZeroDivisionError else Ok (a / b)%Qc.

(** ** Rate extraction (lines 21-31) *)

(** One [<Cube time=...>] element of the feed: its date attribute and the
    [(currency, rate)] attributes of its children, in document order, the
    rates already read by [float(...)]. *)
Record Cube := { time : string; entries : list (string * float) }.

(** The dict comprehension of line 24: a later entry of the same currency
    overwrites an earlier one. *)
Definition rates_of (es : list (string * float)) : gmap string float :=
  foldl (λ m e, <[e.1 := e.2]> m) ∅ es.

(** Lines 27-31 for one date: [Ok None] when the guard of line 27 fails
    (nothing appended), [Ok (Some r)] when [[date, r]] is appended. *)
Definition usd_to_zar (rates : gmap string float) : result (option float) :=
  match rates !! "USD", rates !! "ZAR" with
  | Some usd_to_eur, Some zar_to_eur =>
      r ← py_truediv zar_to_eur usd_to_eur; Ok (Some r)
  | _, _ => Ok None
  end.

(** The loop of lines 22-31, returning the list [data]. *)
Fixpoint extract (cubes : list Cube) : result (list (string * float)) :=
  match cubes with
  | [] => Ok []
  | c :: cs =>
      o ← usd_to_zar (rates_of (entries c));
      rest ← extract cs;
      Ok (match o with Some r => (time c, r) :: rest | None => rest end)
  end.

(** ** Float columns (lines 50 and 55) *)

(** A float64 column; [None] is [NaN]. *)
Abbreviation Series := (list (option float)).

Definition of_nat (n : nat) : float := Qc_of_Z (Z.of_nat n).

Definition sum_floats (l : list float) : float := foldr Qcplus 0%Qc l.

Definition mean (l : list float) : float := (sum_floats l / of_nat (length l))%Qc.

(** The positions [i-w+1 .. i] of the column that exist. *)
Definition window_at (w : nat) (s : Series) (i : nat) : Series :=
  drop (S i - w) (take (S i) s).

(** [s.rolling(w, min_periods).mean()]: at each position the mean of the
    numeric values of the window, or [NaN] when there are fewer than
    [min_periods] of them (or none). *)
Definition rolling_mean (w min_periods : nat) (s : Series) : Series :=
  imap (λ i _,
    let obs := omap id (window_at w s i) in
    if decide (min_periods ≤ length obs ∧ 0 < length obs)%nat
    then Some (mean obs) else None) s.

(** [s.rolling(w)]: [min_periods] defaults to the window size. *)
Definition rolling (w : nat) (s : Series) : Series := rolling_mean w w s.

(** [s.fillna(other)] for a column [other] on the same index. *)
Definition fillna (s other : Series) : Series :=
  zip_with (λ v o, match v with Some _ => v | None => o end) s other.

(** The numeric positions of a column with their values, in order
    ([indices[valid]] and [yvalues[valid]]). *)
Fixpoint valid_from (i : nat) (s : Series) : list (nat * float) :=
  match s with
  | [] => []
  | Some v :: s' => (i, v) :: valid_from (S i) s'
  | None :: s' => valid_from (S i) s'
  end.

(** [np.interp(x, xp, fp)] to the right of the point [(x0, f0)], the
    remaining points being [pts]: the segment that holds [x], or the last
    value beyond the last point. *)
Fixpoint np_interp_from (x x0 : nat) (f0 : float) (pts : list (nat * float)) : float :=
  match pts with
  | [] => f0
  | (x1, f1) :: pts' =>
      if decide (x < x1)%nat
      then ((f1 - f0) / (of_nat x1 - of_nat x0) * (of_nat x - of_nat x0) + f0)%Qc
      else np_interp_from x x1 f1 pts'
  end.

(** [np.interp(x, xp, fp)] for increasing [xp]: the first value to the
    left of the first point. *)
Definition np_interp (x : nat) (pts : list (nat * float)) : option float :=
  match pts with
  | [] => None
  | (x0, f0) :: pts' =>
      Some (if decide (x ≤ x0)%nat then f0 else np_interp_from x x0 f0 pts')
  end.

(** [s.interpolate()]: method linear on equally spaced positions, no limit,
    direction forward.  Every [NaN] takes [np.interp] at its position, then
    the [NaN]s before the first numeric value are put back. A column with
    no numeric value is returned as it is. *)
Definition interpolate (s : Series) : Series :=
  match valid_from 0 s with
  | [] => s
  | ((first_valid_index, _) :: _) as pts =>
      imap (λ i v,
        match v with
        | Some _ => v
        | None => if decide (i < first_valid_index)%nat then None else np_interp i pts
        end) s
  end.

(** Line 50. *)
Definition rolling_fill (s : Series) : Series := fillna s (rolling 3 s).

(** Lines 50 and 55: the column [USDtoZAR_Fill] from the column [USDtoZAR]. *)
Definition USDtoZAR_Fill (s : Series) : Series := interpolate (rolling_fill s).

(** ** Dates and monthly periods (lines 40, 58 and 63) *)

(** Year and month of a day number (the proleptic Gregorian calendar). *)
Definition civil_from_days (d : Z) : Z * Z :=
  let z := d + 719468 in
  let era := z `div` 146097 in
  let doe := z - era * 146097 in
  let yoe := (doe - doe `div` 1460 + doe `div` 36524 - doe `div` 146096) `div` 365 in
  let doy := doe - (365 * yoe + yoe `div` 4 - yoe `div` 100) in
  let mp := (5 * doy + 2) `div` 153 in
  let m := if decide (mp < 10) then mp + 3 else mp - 9 in
  (yoe + era * 400 + (if decide (m ≤ 2) then 1 else 0), m).

(** [.dt.to_period("M")] on one timestamp: a monthly period is the number
    of months since January 1970. *)
Definition to_period_M (d : Z) : Z :=
  let '(y, m) := civil_from_days d in (y - 1970) * 12 + (m - 1).

(** A month number on two digits. *)
Definition month_str (m : Z) : string :=
  if decide (m < 10) then "0" +:+ pretty m else pretty m.

(** [str(p)] of a monthly period: year, dash, month on two digits. *)
Definition period_str (p : Z) : string :=
  pretty (1970 + p `div` 12) +:+ "-" +:+ month_str (p `mod` 12 + 1).

(** [pd.date_range(start, end, freq='D')]: the days from [start] that are
    not after [end]. *)
Definition date_range (start end_ : Z) : list Z := seqZ start (end_ - start + 1).

(** ** Data frames *)

(** A column of a frame by its dtype; [None] is the missing value of the
    dtype ([NaT], [NaN]). *)
Inductive Column :=
| DateCol (l : list (option Z))
| FloatCol (l : Series)
| PeriodCol (l : list (option Z))
| StrCol (l : list (option string)).

(** A frame: its columns in order, by label. *)
Abbreviation DataFrame := (list (string * Column)).

(** A value of a column, for comparing join keys. *)
Inductive cell :=
| CDate (d : Z)
| CFloat (x : float)
| CPeriod (p : Z)
| CStr (s : string).

Global Instance cell_eq_dec : EqDecision cell.
Proof. solve_decision. Defined.

Definition cells (c : Column) : list (option cell) :=
  match c with
  | DateCol l => option_map CDate <$> l
  | FloatCol l => option_map CFloat <$> l
  | PeriodCol l => option_map CPeriod <$> l
  | StrCol l => option_map CStr <$> l
  end.

Definition col_length (c : Column) : nat := length (cells c).

(** Number of rows of a frame (of its first column). *)
Definition nrows (df : DataFrame) : nat :=
  match df with [] => 0%nat | (_, c) :: _ => col_length c end.

Definition columns (df : DataFrame) : list string := df.*1.

Definition same_dtype (a b : Column) : bool :=
  match a, b with
  | DateCol _, DateCol _ | FloatCol _, FloatCol _
  | PeriodCol _, PeriodCol _ | StrCol _, StrCol _ => true
  | _, _ => false
  end.

(** [l.take(ix)] where an absent position gives the missing value. *)
Definition take_opt {A} (l : list (option A)) (ix : list (option nat)) : list (option A) :=
  (λ oi, i ← oi; mjoin (l !! i)) <$> ix.

Definition take_col (c : Column) (ix : list (option nat)) : Column :=
  match c with
  | DateCol l => DateCol (take_opt l ix)
  | FloatCol l => FloatCol (take_opt l ix)
  | PeriodCol l => PeriodCol (take_opt l ix)
  | StrCol l => StrCol (take_opt l ix)
  end.

Definition take_rows (df : DataFrame) (ix : list (option nat)) : DataFrame :=
  prod_map id (λ c, take_col c ix) <$> df.

(** [df[label]]. *)
Fixpoint getitem (df : DataFrame) (label : string) : result Column :=
  match df with
  | [] => Err (KeyError label)
  | (l, c) :: df' => if decide (l = label) then Ok c else getitem df' label
  end.

(** [df[label] = c]: the column is replaced where it is, or added last. *)
Fixpoint setitem (df : DataFrame) (label : string) (c : Column) : DataFrame :=
  match df with
  | [] => [(label, c)]
  | (l, c') :: df' =>
      if decide (l = label) then (l, c) :: df' else (l, c') :: setitem df' label c
  end.

(** [df.drop(columns=labels)]: a label that is no column raises. *)
Fixpoint drop_columns (df : DataFrame) (labels : list string) : result DataFrame :=
  match labels with
  | [] => Ok df
  | l :: ls =>
      if decide (l ∈ columns df)
      then drop_columns (filter (λ lc, lc.1 ≠ l) df) ls
      else Err (KeyError l)
  end.

(** [df.rename(columns=mapper)]: labels outside the mapper are kept. *)
Fixpoint renamed (mapper : list (string * string)) (l : string) : string :=
  match mapper with
  | [] => l
  | (old, new) :: mapper' => if decide (old = l) then new else renamed mapper' l
  end.

Definition rename (df : DataFrame) (mapper : list (string * string)) : DataFrame :=
  prod_map (renamed mapper) id <$> df.

(** ** Left joins (lines 46 and 63) *)

(** The positions of [rk], from [j] on, that hold the key [k]. *)
Fixpoint positions_from (j : nat) (k : option cell) (rk : list (option cell)) : list nat :=
  match rk with
  | [] => []
  | k' :: rk' =>
      if decide (k' = k) then j :: positions_from (S j) k rk'
      else positions_from (S j) k rk'
  end.

(** The row pairs of a left join: every left row in order, once with each
    right row of the same key in the right order, or once with no right
    row. *)
Fixpoint left_join_from (i : nat) (lk rk : list (option cell)) : list (nat * option nat) :=
  match lk with
  | [] => []
  | k :: lk' =>
      match positions_from 0 k rk with
      | [] => [(i, None)]
      | js => (λ j, (i, Some j)) <$> js
      end ++ left_join_from (S i) lk' rk
  end.

Definition left_indexer (ix : list (nat * option nat)) : list (option nat) :=
  (λ p, Some p.1) <$> ix.
Definition right_indexer (ix : list (nat * option nat)) : list (option nat) := ix.*2.

(** A label shared with the other frame takes the suffix of its side. *)
Definition add_suffix (others : list string) (sfx : string) (l : string) : string :=
  if decide (l ∈ others) then l +:+ sfx else l.

Definition concat_suffixed (left right : DataFrame) (suffixes : string * string) : DataFrame :=
  (prod_map (add_suffix (columns right) suffixes.1) id <$> left) ++
  (prod_map (add_suffix (columns left) suffixes.2) id <$> right).

(** [pd.merge(left, right, on=label, how="left")]: the key column of the
    right frame is left out of the result. *)
Definition merge_on (left right : DataFrame) (on : string) : result DataFrame :=
  lk ← getitem left on;
  rk ← getitem right on;
  if same_dtype lk rk then
    let ix := left_join_from 0 (cells lk) (cells rk) in
    Ok (concat_suffixed (take_rows left (left_indexer ix))
          (take_rows (filter (λ lc, lc.1 ≠ on) right) (right_indexer ix))
          ("_x", "_y"))
  else Err ValueError.

(** [pd.merge(left, right, left_on=array, right_on=label, how="left",
    suffixes=...)]: the join key is a column of the result under the label
    [right_on], which is inserted first when no column has that label after
    the suffixes are added. *)
Definition merge_left_on (left : DataFrame) (left_on : Column) (right : DataFrame)
    (right_on : string) (suffixes : string * string) : result DataFrame :=
  rk ← getitem right right_on;
  if decide (col_length left_on = nrows left) then
    if same_dtype left_on rk then
      let ix := left_join_from 0 (cells left_on) (cells rk) in
      let joined := concat_suffixed (take_rows left (left_indexer ix))
                      (take_rows right (right_indexer ix)) suffixes in
      let key_col := take_col left_on (left_indexer ix) in
      Ok (if decide (right_on ∈ columns joined) then setitem joined right_on key_col
          else (right_on, key_col) :: joined)
    else Err ValueError
  else Err ValueError.

(** ** Group means (line 59) *)

(** The values of the rows whose key is [k]. *)
Definition group_values (k : Z) (keys : list (option Z)) (vals : Series) : Series :=
  (filter (λ kv, kv.1 = Some k) (zip keys vals)).*2.

(** The mean of a group skips [NaN]; a group without a number has mean
    [NaN]. *)
Definition mean_skipna (vals : Series) : option float :=
  let obs := omap id vals in
  if decide (obs = []) then None else Some (mean obs).

(** The group keys: the distinct keys that are not missing, sorted. *)
Definition group_keys (keys : list (option Z)) : list Z :=
  merge_sort Z.le (remove_dups (omap id keys)).

(** [df.groupby(by)[label].mean().reset_index()]: one row per group key. *)
Definition groupby_mean (keys : list (option Z)) (vals : Series) : list (Z * option float) :=
  (λ k, (k, mean_skipna (group_values k keys vals))) <$> group_keys keys.

Definition groupby_mean_reset_index (df : DataFrame) (by_ label : string) : result DataFrame :=
  kc ← getitem df by_;
  vc ← getitem df label;
  match kc, vc with
  | PeriodCol keys, FloatCol vals =>
      let g := groupby_mean keys vals in
      Ok [(by_, PeriodCol (Some <$> g.*1)); (label, FloatCol g.*2)]
  | _, _ => Err TypeError
  end.

(** ** Sorting by date (line 36) *)

(** Dates in increasing order, [NaT] last; rows of the same date keep
    their order (pandas leaves the order of ties to the sort kind). *)
Definition date_le (a b : option Z * nat) : Prop :=
  match a.1, b.1 with
  | Some x, Some y => x < y ∨ (x = y ∧ (a.2 ≤ b.2)%nat)
  | Some _, None => True
  | None, None => (a.2 ≤ b.2)%nat
  | None, Some _ => False
  end.

Global Instance date_le_dec : RelDecision date_le.
Proof. intros [[?|] ?] [[?|] ?]; unfold date_le; simpl; apply _. Defined.

Definition argsort (l : list (option Z)) : list nat :=
  (merge_sort date_le (imap (λ i d, (d, i)) l)).*2.

Definition sort_values (df : DataFrame) (by_ : string) : result DataFrame :=
  c ← getitem df by_;
  match c with
  | DateCol l => Ok (take_rows df (Some <$> argsort l))
  | _ => Err TypeError
  end.

(** [s.min()] of a date column: [NaT] when it has no date. *)
Definition min_date (l : list (option Z)) : option Z :=
  foldr (λ o acc, match o, acc with
                  | Some d, Some m => Some (Z.min d m)
                  | Some d, None => Some d
                  | None, _ => acc
                  end) None l.

(** ** Column accessors *)

Definition float_values (c : Column) : result Series :=
  match c with FloatCol s => Ok s | _ => Err TypeError end.

Definition date_values (c : Column) : result (list (option Z)) :=
  match c with DateCol l => Ok l | _ => Err TypeError end.

(** [c.dt.to_period("M")]. *)
Definition dt_to_period_M (c : Column) : result Column :=
  l ← date_values c; Ok (PeriodCol (option_map to_period_M <$> l)).

(** [c.astype(str)] of a period column. *)
Definition astype_str (c : Column) : result Column :=
  match c with
  | PeriodCol l => Ok (StrCol ((λ o, Some (from_option period_str "NaT" o)) <$> l))
  | _ => Err TypeError
  end.

(** ** Events of a run *)

Inductive event :=
| PrintMsg (msg : string)
| PrintFrame (df : DataFrame)
| ToCsv (path : string) (df : DataFrame)
| PltFigure
| PltPlot (x y : Column) (label color : string)
| PltXlabel (s : string)
| PltYlabel (s : string)
| PltTitle (s : string)
| PltXticks
| PltGrid
| PltTightLayout
| PltShow.

(** A run: the events so far and a value or the exception that ended it. *)
Definition io (A : Type) : Type := list event * result A.

Global Instance io_ret : MRet io := λ A a, ([], Ok a).
Global Instance io_bind : MBind io := λ A B k m,
  match m with
  | (t, Ok a) => let '(t', r) := k a in (t ++ t', r)
  | (t, Err e) => (t, Err e)
  end.
Definition emit (e : event) : io unit := ([e], Ok tt).
Definition raise {A} (e : exn) : io A := ([], Err e).
Definition lift {A} (r : result A) : io A := ([], r).

(** ** The script *)

Section script.

(** [pd.to_datetime] on one date string: its day number, or the
    exception it raises. *)
Variable to_datetime : string → result Z.

Fixpoint to_datetime_all (l : list (option string)) : result (list (option Z)) :=
  match l with
  | [] => Ok []
  | None :: l' => ds ← to_datetime_all l'; Ok (None :: ds)
  | Some s :: l' => d ← to_datetime s; ds ← to_datetime_all l'; Ok (Some d :: ds)
  end.

Definition pd_to_datetime (c : Column) : result Column :=
  match c with
  | StrCol l => ds ← to_datetime_all l; Ok (DateCol ds)
  | DateCol l => Ok c
  | _ => Err TypeError
  end.

(** Lines 34-36: the frame [df]. *)
Definition make_df (data : list (string * float)) : result DataFrame :=
  let df := [("InformationDate", StrCol (Some <$> data.*1));
             ("USDtoZAR", FloatCol (Some <$> data.*2))] in
  c ← getitem df "InformationDate";
  c ← pd_to_datetime c;
  let df := setitem df "InformationDate" c in
  sort_values df "InformationDate".

(** Lines 40-58: the frame [df_full]; [today] is the day number of the
    run. A start that is [NaT] makes [pd.date_range] raise. *)
Definition make_df_full (today : Z) (df : DataFrame) : result DataFrame :=
  c ← getitem df "InformationDate";
  l ← date_values c;
  start ← from_option Ok (Err ValueError) (min_date l);
  let all_dates := date_range start today in
  let df_full := [("InformationDate", DateCol (Some <$> all_dates))] in
  df_full ← merge_on df_full df "InformationDate";
  c ← getitem df_full "USDtoZAR";
  s ← float_values c;
  let df_full := setitem df_full "USDtoZAR_Fill" (FloatCol (rolling_fill s)) in
  c ← getitem df_full "USDtoZAR_Fill";
  s ← float_values c;
  let df_full := setitem df_full "USDtoZAR_Fill" (FloatCol (interpolate s)) in
  c ← getitem df_full "InformationDate";
  p ← dt_to_period_M c;
  Ok (setitem df_full "YearMonth" p).

(** Lines 59-60: the frame [monthly_avg_df]. *)
Definition make_monthly_avg_df (df_full : DataFrame) : result DataFrame :=
  m ← groupby_mean_reset_index df_full "YearMonth" "USDtoZAR_Fill";
  c ← getitem m "YearMonth";
  c ← astype_str c;
  Ok (setitem m "YearMonth" c).

(** Lines 63-64: the merge. *)
Definition merge_daily_monthly (df_full monthly_avg_df : DataFrame) : result DataFrame :=
  c ← getitem df_full "InformationDate";
  p ← dt_to_period_M c;
  k ← astype_str p;
  merge_left_on df_full k monthly_avg_df "YearMonth" ("_daily", "_monthly").

(** Lines 63-73: the frame [combined_df]. *)
Definition make_combined_df (df_full monthly_avg_df : DataFrame) : result DataFrame :=
  combined_df ← merge_daily_monthly df_full monthly_avg_df;
  combined_df ← drop_columns combined_df ["YearMonth"; "YearMonth_daily"; "YearMonth_monthly"];
  Ok (rename combined_df [("USDtoZAR_Fill_daily", "USDtoZAR_Fill");
                          ("USDtoZAR_Fill_monthly", "USDtoZAR_MonthlyAver")]).

(** Lines 34-73. *)
Definition process (today : Z) (data : list (string * float)) : result DataFrame :=
  df ← make_df data;
  df_full ← make_df_full today df;
  monthly_avg_df ← make_monthly_avg_df df_full;
  make_combined_df df_full monthly_avg_df.

(** Lines 87-94 and 97-104: one chart of a column of [combined_df]
    against the dates. The figure is created before the arguments of
    [plt.plot] are evaluated. *)
Definition chart (combined_df : option DataFrame) (column label color xl yl title : string) : io unit :=
  emit PltFigure;;
  df ← from_option mret (raise (NameError "combined_df")) combined_df;
  x ← lift (getitem df "InformationDate");
  y ← lift (getitem df column);
  emit (PltPlot x y label color);;
  emit (PltXlabel xl);; emit (PltYlabel yl);; emit (PltTitle title);;
  emit PltXticks;; emit PltGrid;; emit PltTightLayout.

(** The whole script: [status_code] and [feed] are the status and the
    parsed content of the response. The name [combined_df] is bound in
    the success branch only. *)
Definition main (status_code : Z) (feed : list Cube) (today : Z) : io unit :=
  combined_df ←
    (if decide (status_code = 200) then
       data ← lift (extract feed);
       combined_df ← lift (process today data);
       emit (ToCsv "USDtoZAR_ExchangeRates.csv" combined_df);;
       emit (PrintMsg "Combined daily and monthly average exchange rates with extrapolated values saved to USDtoZAR_ExchangeRates.csv");;
       emit (PrintFrame combined_df);;
       mret (Some combined_df)
     else
       emit (PrintMsg "Failed to fetch historical exchange rate data from ECB.");;
       mret None);
  chart combined_df "USDtoZAR" "USD to ZAR Exchange Rate (Daily)" "tab:blue"
    "Date" "USD to ZAR" "USD to ZAR Exchange Rate (Daily)";;
  chart combined_df "USDtoZAR_MonthlyAver" "Monthly Average USD to ZAR" "tab:orange"
    "Year-Month" "USD to ZAR (Monthly Average)" "USD to ZAR Exchange Rate (Monthly Average)";;
  emit PltShow.

End script.

(** ** Concrete values for examples *)

(** The float [n / d]. *)
Definition q (n d : Z) : float := (Qc_of_Z n / Qc_of_Z d)%Qc.

Global Instance exn_eq_dec : EqDecision exn.
Proof. solve_decision. Defined.
Global Instance result_eq_dec `{EqDecision A} : EqDecision (result A).
Proof. solve_decision. Defined.
Global Instance Column_eq_dec : EqDecision Column.
Proof. solve_decision. Defined.
Global Instance event_eq_dec : EqDecision event.
Proof. solve_decision. Defined.

(** What the loop appends for one cube, when no division fails. *)
Definition cross_entry (c : Cube) : option (string * float) :=
  match rates_of (entries c) !! "USD", rates_of (entries c) !! "ZAR" with
  | Some usd, Some zar => Some (time c, (zar / usd)%Qc)
  | _, _ => None
  end.

(** A feed of three dates, the second without a ZAR rate. *)
Definition feed_example : list Cube :=
  [ {| time := "2020-01-02"; entries := [("USD", q 108 100); ("ZAR", q 1960 100)] |};
    {| time := "2020-01-01"; entries := [("JPY", q 120 1); ("USD", q 110 100)] |};
    {| time := "2019-12-31"; entries := [("USD", q 110 100); ("ZAR", q 1950 100)] |} ].

(** The candidate of the first fill step as the specification words it:
    the mean of whatever numbers the window holds, missing only when it
    holds none. *)
Definition mean_available (w : nat) (s : Series) (d : nat) : option float :=
  let obs := omap id (window_at w s d) in
  if decide (obs = []) then None else Some (mean obs).

(** The five days of the specification's scenario. *)
Definition five_days : Series := [Some (q 10 1); None; None; None; Some (q 15 1)].

(** Seven days with missing values before, between and after the rates. *)
Definition gap_at_both_ends : Series :=
  [None; None; Some (q 10 1); None; Some (q 15 1); None; None].

(** The filled values that the specification averages for the month [M]:
    the numbers among the filled values of the days that fall in [M]. *)
Definition month_values (M : Z) (dates : list (option Z)) (filled : Series) : list float :=
  omap (λ dv, match dv.1 with
              | Some d => if decide (to_period_M d = M) then dv.2 else None
              | None => None
              end) (zip dates filled).

(** The shape of [df_full] after line 58. *)
Definition daily_frame (dates : list (option Z)) (usd filled : Series) : DataFrame :=
  [("InformationDate", DateCol dates); ("USDtoZAR", FloatCol usd);
   ("USDtoZAR_Fill", FloatCol filled);
   ("YearMonth", PeriodCol (option_map to_period_M <$> dates))].

(** The shape of [monthly_avg_df] after line 60, from the group rows. *)
Definition monthly_frame (months : list Z) (avgs : Series) : DataFrame :=
  [("YearMonth", StrCol ((λ M, Some (period_str M)) <$> months));
   ("USDtoZAR_Fill", FloatCol avgs)].

(** The shape of [df] after line 36. *)
Definition rates_frame (dates : list (option Z)) (usd : Series) : DataFrame :=
  [("InformationDate", DateCol dates); ("USDtoZAR", FloatCol usd)].

(** The shape of the merge of lines 63-64, before the columns are dropped
    and renamed; [ix] is the list of row pairs of the join. *)
Definition merged_frame (dates : list (option Z)) (usd filled : Series)
    (labels : list (option string)) (months : list Z) (avgs : Series)
    (ix : list (nat * option nat)) : DataFrame :=
  [("YearMonth", StrCol (take_opt labels (left_indexer ix)));
   ("InformationDate", DateCol (take_opt dates (left_indexer ix)));
   ("USDtoZAR", FloatCol (take_opt usd (left_indexer ix)));
   ("USDtoZAR_Fill_daily", FloatCol (take_opt filled (left_indexer ix)));
   ("YearMonth_daily", PeriodCol (take_opt (option_map to_period_M <$> dates) (left_indexer ix)));
   ("YearMonth_monthly",
    StrCol (take_opt ((λ M, Some (period_str M)) <$> months) (right_indexer ix)));
   ("USDtoZAR_Fill_monthly", FloatCol (take_opt avgs (right_indexer ix)))].

(** The shape of [combined_df] after line 73. *)
Definition combined_frame (dates : list (option Z)) (usd filled avgs : Series) : DataFrame :=
  [("InformationDate", DateCol dates); ("USDtoZAR", FloatCol usd);
   ("USDtoZAR_Fill", FloatCol filled); ("USDtoZAR_MonthlyAver", FloatCol avgs)].

(** The label of the month of a date of [df_full] (line 63). *)
Definition month_label (d : option Z) : option string :=
  Some (from_option period_str "NaT" (option_map to_period_M d)).

(** The row pairs of the merge of lines 63-64: the daily rows by the label
    of their month against the [YearMonth] labels of the month rows. *)
Definition month_join (dates : list (option Z)) (months : list Z) : list (nat * option nat) :=
  left_join_from 0 (cells (StrCol (month_label <$> dates)))
    (cells (StrCol ((λ M, Some (period_str M)) <$> months))).

(** The mean of the specification for the month [M]: missing when the
    month has no number. *)
Definition month_mean (M : Z) (dates : list (option Z)) (filled : Series) : option float :=
  if decide (month_values M dates filled = []) then None
  else Some (mean (month_values M dates filled)).

(** Three days, 2020-01-30 to 2020-02-01 (day numbers 18291 to 18293). *)
Definition three_days : list (option Z) := [Some 18291; Some 18292; Some 18293].

(** A reader of the dates of [feed_example]. *)
Definition to_datetime_example (s : string) : result Z :=
  if decide (s = "2019-12-31") then Ok 18261
  else if decide (s = "2020-01-01") then Ok 18262
  else if decide (s = "2020-01-02") then Ok 18263
  else Err ValueError.

(** The rates of [feed_example]. *)
Definition data_example : list (string * float) :=
  [("2020-01-02", (q 1960 100 / q 108 100)%Qc); ("2019-12-31", (q 1950 100 / q 110 100)%Qc)].

(** The events of one chart of lines 87-94 and 97-104. *)
Definition chart_events (x y : Column) (label color xl yl title : string) : list event :=
  [PltFigure; PltPlot x y label color; PltXlabel xl; PltYlabel yl; PltTitle title;
   PltXticks; PltGrid; PltTightLayout].

(** The events of a run that computes [combined_df], whose columns of
    dates, raw rates and monthly averages are [dates], [usd] and [avgs]. *)
Definition success_events (combined_df : DataFrame) (dates usd avgs : Column) : list event :=
  [ToCsv "USDtoZAR_ExchangeRates.csv" combined_df;
   PrintMsg "Combined daily and monthly average exchange rates with extrapolated values saved to USDtoZAR_ExchangeRates.csv";
   PrintFrame combined_df] ++
  chart_events dates usd "USD to ZAR Exchange Rate (Daily)" "tab:blue"
    "Date" "USD to ZAR" "USD to ZAR Exchange Rate (Daily)" ++
  chart_events dates avgs "Monthly Average USD to ZAR" "tab:orange"
    "Year-Month" "USD to ZAR (Monthly Average)" "USD to ZAR Exchange Rate (Monthly Average)" ++
  [PltShow].

(** The row of a sorted pair (date, position): the date with the rate at
    that position. *)
Definition row_of (vs : list float) (p : option Z * nat) : option (Z * float) :=
  d ← p.1; v ← vs !! p.2; Some (d, v).


(** Closed equalities between computed values: floats carry a proof of
    canonicity, so they are compared by the decision procedure. *)
Ltac by_compute := apply (bool_decide_unpack _); vm_compute; exact I.

(** * Rate extraction *)

Section extraction.

Implicit Types (rates : gmap string float) (cubes : list Cube).

Lemma bind_Ok {A B} (a : A) (k : A → result B) : (Ok a ≫= k) = k a.
Proof. done. Qed.

Lemma py_truediv_nonzero (a b : float) : b ≠ 0%Qc → py_truediv a b = Ok (a / b)%Qc.
Proof. intros Hb. unfold py_truediv. by rewrite decide_False. Qed.

Lemma py_truediv_zero (a : float) : py_truediv a 0%Qc = Err ZeroDivisionError.
Proof. unfold py_truediv. by rewrite decide_True. Qed.

Lemma usd_to_zar_both rates usd zar :
  rates !! "USD" = Some usd → rates !! "ZAR" = Some zar →
  usd_to_zar rates = r ← py_truediv zar usd; Ok (Some r).
Proof. intros Hu Hz. unfold usd_to_zar. by rewrite Hu, Hz. Qed.

Lemma usd_to_zar_skip rates :
  usd_to_zar rates = Ok None ↔ rates !! "USD" = None ∨ rates !! "ZAR" = None.
Proof.
  unfold usd_to_zar, py_truediv.
  destruct (rates !! "USD") as [u|], (rates !! "ZAR") as [z|]; simpl;
    try case_decide; simpl; intuition congruence.
Qed.

Lemma extract_omap cubes :
  Forall (λ c, rates_of (entries c) !! "USD" ≠ Some 0%Qc) cubes →
  extract cubes = Ok (omap cross_entry cubes).
Proof.
  induction 1 as [|c cs Hc _ IH]; [done|].
  simpl. rewrite IH. unfold cross_entry, usd_to_zar.
  destruct (rates_of (entries c) !! "USD") as [u|] eqn:Hu; [|done].
  destruct (rates_of (entries c) !! "ZAR") as [z|]; [|done].
  rewrite py_truediv_nonzero; [done|]. by intros ->.
Qed.

Lemma usd_to_zar_Ok rates o :
  usd_to_zar rates = Ok o →
  o = match rates !! "USD", rates !! "ZAR" with
      | Some usd, Some zar => Some (zar / usd)%Qc
      | _, _ => None
      end.
Proof.
  unfold usd_to_zar.
  destruct (rates !! "USD") as [u|], (rates !! "ZAR") as [z|].
  2-4: by intros [= <-].
  destruct (decide (u = 0%Qc)) as [->|Hne].
  - by rewrite py_truediv_zero.
  - rewrite py_truediv_nonzero by done. by intros [= <-].
Qed.

Lemma extract_Ok_omap cubes data :
  extract cubes = Ok data → data = omap cross_entry cubes.
Proof.
  revert data. induction cubes as [|c cs IH]; intros data; cbn [extract].
  { by intros [= <-]. }
  destruct (usd_to_zar (rates_of (entries c))) as [o|] eqn:Ho; [|done].
  destruct (extract cs) as [rest|]; [|done].
  rewrite !bind_Ok. intros [= <-]. apply usd_to_zar_Ok in Ho.
  rewrite (IH rest eq_refl). subst o. csimpl.
  change (cross_entry c) with
    (match rates_of (entries c) !! "USD", rates_of (entries c) !! "ZAR" with
     | Some usd, Some zar => Some (time c, (zar / usd)%Qc)
     | _, _ => None
     end).
  by destruct (rates_of (entries c) !! "USD"), (rates_of (entries c) !! "ZAR").
Qed.

(** C1. Whenever the loop returns the list [data]: every date that has
    both the USD and the ZAR rate has the entry ZAR rate / USD rate;
    every entry of [data] comes from such a date, so a date lacking a
    rate gives no entry; and [data] has one entry per such date. And the
    loop returns when no USD rate of the feed is zero. *)
Theorem extract_cross_rate cubes :
  (∀ data, extract cubes = Ok data →
    (∀ c usd zar, c ∈ cubes →
       rates_of (entries c) !! "USD" = Some usd →
       rates_of (entries c) !! "ZAR" = Some zar →
       (time c, (zar / usd)%Qc) ∈ data) ∧
    (∀ d r, (d, r) ∈ data →
       ∃ c usd zar, c ∈ cubes ∧ time c = d ∧
         rates_of (entries c) !! "USD" = Some usd ∧
         rates_of (entries c) !! "ZAR" = Some zar ∧ r = (zar / usd)%Qc) ∧
    length data = length (filter (λ c, is_Some (rates_of (entries c) !! "USD") ∧
                                       is_Some (rates_of (entries c) !! "ZAR")) cubes)) ∧
  ((∀ c, c ∈ cubes → rates_of (entries c) !! "USD" ≠ Some 0%Qc) →
   ∃ data, extract cubes = Ok data).
Proof.
  split.
  - intros data ->%extract_Ok_omap. split; [|split].
    + intros c usd zar Hc Hu Hz. apply list_elem_of_omap. exists c. split; [done|].
      unfold cross_entry. by rewrite Hu, Hz.
    + intros d r [c [Hc He]]%list_elem_of_omap. unfold cross_entry in He.
      destruct (rates_of (entries c) !! "USD") as [u|] eqn:Hu; [|done].
      destruct (rates_of (entries c) !! "ZAR") as [z|] eqn:Hz; [|done].
      simplify_eq. by exists c, u, z.
    + induction cubes as [|c cs IH]; [done|].
      simpl. rewrite filter_cons. unfold cross_entry at 1.
      destruct (rates_of (entries c) !! "USD") as [u|];
        destruct (rates_of (entries c) !! "ZAR") as [z|]; simpl;
        first [exact (f_equal S IH) | exact IH].
  - intros Hnz. exists (omap cross_entry cubes).
    apply extract_omap, Forall_forall, Hnz.
Qed.

Lemma extract_cross_rate_witness :
  ∃ data, extract feed_example = Ok data ∧ length data = 2%nat.
Proof.
  destruct (proj2 (extract_cross_rate feed_example)) as [data He].
  - intros c Hc. apply (bool_decide_unpack _).
    revert c Hc. apply Forall_forall. by_compute.
  - exists data. split; [done|].
    destruct (proj1 (extract_cross_rate feed_example) data He) as (_ & _ & Hlen).
    rewrite Hlen. vm_compute. reflexivity.
Defined.

(** C7, as stated, fails: with a USD rate of zero the date does not give
    "no entry"; the division raises. *)
Lemma usd_to_zar_zero_raises :
  let rates := rates_of [("USD", q 0 1); ("ZAR", q 18 1)] in
  rates !! "USD" = Some 0%Qc ∧
  usd_to_zar rates = Err ZeroDivisionError ∧ usd_to_zar rates ≠ Ok None ∧
  extract [ {| time := "2020-01-01"; entries := [("USD", q 0 1); ("ZAR", q 18 1)] |} ]
    = Err ZeroDivisionError.
Proof. repeat split; by_compute. Qed.

(** C7, amended. The division is made exactly when both rates are
    present, whatever the USD rate: a date lacking a rate gives no entry,
    a date with both and a USD rate that is not zero gives ZAR / USD, and
    a USD rate of zero makes the division raise. *)
Theorem usd_to_zar_guard rates :
  (usd_to_zar rates = Ok None ↔ rates !! "USD" = None ∨ rates !! "ZAR" = None) ∧
  (∀ usd zar, rates !! "USD" = Some usd → rates !! "ZAR" = Some zar →
     usd_to_zar rates =
       if decide (usd = 0%Qc) then Err ZeroDivisionError else Ok (Some (zar / usd)%Qc)).
Proof.
  split; [apply usd_to_zar_skip|].
  intros usd zar Hu Hz. rewrite (usd_to_zar_both _ _ _ Hu Hz).
  destruct (decide (usd = 0%Qc)) as [->|Hne];
    [by rewrite py_truediv_zero | by rewrite py_truediv_nonzero].
Qed.

Lemma usd_to_zar_guard_witness :
  usd_to_zar (rates_of [("USD", q 110 100); ("ZAR", q 1950 100)])
  = Ok (Some (q 1950 100 / q 110 100)%Qc).
Proof.
  rewrite (proj2 (usd_to_zar_guard (rates_of [("USD", q 110 100); ("ZAR", q 1950 100)]))
             (q 110 100) (q 1950 100)); [| vm_compute; reflexivity | vm_compute; reflexivity].
  rewrite decide_False; [reflexivity|]. apply (bool_decide_unpack _). vm_compute. exact I.
Defined.

End extraction.

(** * The rolling-mean fill (line 50) *)

Section rolling.

Implicit Types (s : Series) (d i : nat).

Lemma length_omap_id_le {A} (l : list (option A)) : (length (omap id l) ≤ length l)%nat.
Proof. induction l as [|[a|] l IH]; csimpl; lia. Qed.

Lemma length_window_at_le w s i : (length (window_at w s i) ≤ S i)%nat.
Proof. unfold window_at. rewrite length_drop, length_take. lia. Qed.

(** A full window of three is the three positions up to [d]. *)
Lemma window_at_3 s i a b c :
  s !! i = Some a → s !! S i = Some b → s !! S (S i) = Some c →
  window_at 3 s (S (S i)) = [a; b; c].
Proof.
  intros Ha Hb Hc. unfold window_at.
  replace (S (S (S i)) - 3)%nat with i by lia.
  apply list_eq. intros [|[|[|j]]]; rewrite lookup_drop; simpl.
  - rewrite lookup_take_lt by lia. by rewrite Nat.add_0_r.
  - rewrite lookup_take_lt by lia. by replace (i + 1)%nat with (S i) by lia.
  - rewrite lookup_take_lt by lia. by replace (i + 2)%nat with (S (S i)) by lia.
  - apply lookup_take_ge. lia.
Qed.

Lemma rolling_lookup w s d :
  rolling w s !! d =
    (λ _, let obs := omap id (window_at w s d) in
          if decide (w ≤ length obs ∧ 0 < length obs)%nat then Some (mean obs) else None)
    <$> s !! d.
Proof. unfold rolling, rolling_mean. by rewrite list_lookup_imap. Qed.

Lemma mean_3 (a b c : float) : mean [a; b; c] = ((a + b + c) / Qc_of_Z 3)%Qc.
Proof. unfold mean, sum_floats. simpl. f_equal. ring. Qed.

(** The candidate of the first fill step is a number exactly when the
    three positions [d-2], [d-1], [d] exist and hold numbers. *)
Lemma rolling_3_Some s d m :
  rolling 3 s !! d = Some (Some m) ↔
  ∃ i a b c, d = S (S i) ∧ s !! i = Some (Some a) ∧ s !! S i = Some (Some b) ∧
             s !! d = Some (Some c) ∧ m = ((a + b + c) / Qc_of_Z 3)%Qc.
Proof.
  rewrite rolling_lookup. split.
  - destruct (s !! d) as [x|] eqn:Hd; [|done]. simpl.
    case_decide as Hlen; [|done]. intros [= <-].
    destruct Hlen as [Hlen _].
    pose proof (length_omap_id_le (window_at 3 s d)) as H1.
    pose proof (length_window_at_le 3 s d) as H2.
    destruct d as [|[|i]]; [lia|lia|].
    destruct (lookup_lt_is_Some_2 s i) as [a Ha]; [apply lookup_lt_Some in Hd; lia|].
    destruct (lookup_lt_is_Some_2 s (S i)) as [b Hb]; [apply lookup_lt_Some in Hd; lia|].
    rewrite (window_at_3 s i a b x) in * by done.
    destruct a as [a|], b as [b|], x as [c|]; csimpl in *; try lia.
    exists i, a, b, c. by rewrite mean_3.
  - intros (i & a & b & c & -> & Ha & Hb & Hc & ->).
    rewrite Hc. simpl. rewrite (window_at_3 s i _ _ _ Ha Hb Hc). csimpl.
    by rewrite mean_3.
Qed.

(** At a missing value the candidate is missing. *)
Lemma rolling_3_at_NaN s d : s !! d = Some None → rolling 3 s !! d = Some None.
Proof.
  intros Hd. destruct (rolling 3 s !! d) as [[m|]|] eqn:Hr.
  - apply rolling_3_Some in Hr as (i & a & b & c & -> & _ & _ & Hc & _). congruence.
  - done.
  - rewrite rolling_lookup, Hd in Hr. done.
Qed.

Lemma length_rolling w s : length (rolling w s) = length s.
Proof. unfold rolling, rolling_mean. apply length_imap. Qed.

(** Line 50 changes nothing. *)
Lemma rolling_fill_id s : rolling_fill s = s.
Proof.
  unfold rolling_fill, fillna. apply list_eq. intros d.
  rewrite lookup_zip_with. destruct (s !! d) as [[v|]|] eqn:Hd; simpl; [| |done].
  - rewrite rolling_lookup, Hd. done.
  - by rewrite (rolling_3_at_NaN s d Hd).
Qed.

(** C2, on the code: on [10, NaN] the window of the second day holds one
    number, whose mean is 10, the candidate that the claim and the comment
    of lines 48-49 expect; the candidate of the code is missing, because
    [rolling(3)] asks for three numbers. *)
Lemma rolling_partial_window_NaN :
  let s := [Some (q 10 1); None] in
  s !! 1%nat = Some None ∧
  omap id (window_at 3 s 1) = [q 10 1] ∧
  mean_available 3 s 1 = Some (q 10 1) ∧
  rolling 3 s !! 1%nat = Some None ∧
  ¬ (∀ (s : Series) d, s !! d = Some None → rolling 3 s !! d = Some (mean_available 3 s d)).
Proof.
  repeat split; try by_compute.
  intros H. specialize (H [Some (q 10 1); None] 1%nat eq_refl).
  revert H. apply (bool_decide_unpack _). vm_compute. exact I.
Qed.

(** What line 50 does: the candidate at [d] is the mean of the three
    values at [d-2], [d-1], [d] when all three positions exist and hold
    numbers, and is missing otherwise. So at every date with a missing
    value the candidate is missing, and the line leaves the column as it
    was. *)
Theorem rolling_fill_candidate s d :
  (∀ m, rolling 3 s !! d = Some (Some m) ↔
     ∃ i a b c, d = S (S i) ∧ s !! i = Some (Some a) ∧ s !! S i = Some (Some b) ∧
                s !! d = Some (Some c) ∧ m = ((a + b + c) / Qc_of_Z 3)%Qc) ∧
  (s !! d = Some None → rolling 3 s !! d = Some None) ∧
  rolling_fill s = s.
Proof.
  split; [intros m; apply rolling_3_Some|].
  split; [apply rolling_3_at_NaN | apply rolling_fill_id].
Qed.

Lemma rolling_fill_candidate_witness :
  rolling 3 [Some (q 10 1); Some (q 12 1); None; Some (q 14 1)] !! 2%nat = Some None.
Proof.
  apply (proj1 (proj2 (rolling_fill_candidate
                [Some (q 10 1); Some (q 12 1); None; Some (q 14 1)] 2))).
  reflexivity.
Defined.

End rolling.

(** * Interpolation (line 55) *)

Section interpolation.

Implicit Types (s : Series) (pts : list (nat * float)) (i j k : nat).

Local Arguments np_interp : simpl never.

Lemma valid_from_app k s1 s2 :
  valid_from k (s1 ++ s2) = valid_from k s1 ++ valid_from (k + length s1) s2.
Proof.
  revert k. induction s1 as [|[v|] s1 IH]; intros k; simpl.
  - by rewrite Nat.add_0_r.
  - rewrite IH. do 3 f_equal. lia.
  - rewrite IH. do 2 f_equal. lia.
Qed.

Lemma valid_from_bounds k s :
  Forall (λ p, k ≤ p.1 < k + length s)%nat (valid_from k s).
Proof.
  revert k. induction s as [|[v|] s IH]; intros k; simpl; [constructor| |].
  - constructor; [simpl; lia|].
    eapply Forall_impl; [apply IH|]. intros; simpl in *; lia.
  - eapply Forall_impl; [apply IH|]. intros; simpl in *; lia.
Qed.

Lemma valid_from_all_NaN k s : Forall (λ x, x = None) s → valid_from k s = [].
Proof. intros H. revert k. induction H as [|x s -> _ IH]; intros k; simpl; auto. Qed.

Lemma valid_from_nil_inv k s : valid_from k s = [] → Forall (λ x, x = None) s.
Proof.
  revert k. induction s as [|[v|] s IH]; intros k; simpl; [constructor|done|].
  intros H. constructor; eauto.
Qed.

(** The first numeric position is not after any numeric position. *)
Lemma valid_from_head k s x0 f0 pts i v :
  valid_from k s = (x0, f0) :: pts → s !! i = Some (Some v) → (x0 ≤ k + i)%nat.
Proof.
  revert k i. induction s as [|[w|] s IH]; intros k i; simpl; [done| |].
  - intros [= <- _ _] _. lia.
  - destruct i as [|i]; [done|]. simpl. intros H1 H2.
    specialize (IH _ _ H1 H2). lia.
Qed.

(** The points of a column split at a numeric position. *)
Lemma valid_from_split s i a :
  s !! i = Some (Some a) →
  valid_from 0 s = valid_from 0 (take i s) ++ (i, a) :: valid_from (S i) (drop (S i) s).
Proof.
  intros Hi. pose proof (lookup_lt_Some _ _ _ Hi) as Hlen.
  rewrite <-(take_drop_middle s i (Some a) Hi) at 1.
  rewrite valid_from_app. simpl. rewrite length_take_le by lia. done.
Qed.

(** The next point after a run of missing values. *)
Lemma valid_from_gap k s n b :
  s !! n = Some (Some b) → (∀ m, (m < n)%nat → s !! m = Some None) →
  valid_from k s = (k + n, b)%nat :: valid_from (S (k + n)) (drop (S n) s).
Proof.
  intros Hn Hgap. pose proof (lookup_lt_Some _ _ _ Hn) as Hlen.
  rewrite <-(take_drop_middle s n (Some b) Hn) at 1.
  rewrite valid_from_app, valid_from_all_NaN; simpl.
  - rewrite length_take_le by lia. done.
  - apply Forall_lookup. intros m x [Hm Hlt]%lookup_take_Some.
    rewrite (Hgap m Hlt) in Hm. congruence.
Qed.

Lemma np_interp_from_skip x x0 f0 pts1 x1 f1 pts2 :
  Forall (λ p, p.1 ≤ x)%nat pts1 → (x1 ≤ x)%nat →
  np_interp_from x x0 f0 (pts1 ++ (x1, f1) :: pts2) = np_interp_from x x1 f1 pts2.
Proof.
  intros H Hx1. revert x0 f0. induction H as [|[y g] pts1 Hy _ IH]; intros x0 f0; simpl.
  - rewrite decide_False by lia. done.
  - simpl in Hy. rewrite decide_False by lia. apply IH.
Qed.

Lemma np_interp_skip x pts1 x1 f1 pts2 :
  Forall (λ p, p.1 < x)%nat (pts1 ++ [(x1, f1)]) →
  np_interp x (pts1 ++ (x1, f1) :: pts2) = Some (np_interp_from x x1 f1 pts2).
Proof.
  rewrite Forall_app, Forall_singleton. intros [H1 H2]. simpl in H2.
  unfold np_interp. destruct H1 as [|[y g] pts1 Hy H1]; simpl.
  - rewrite decide_False by lia. done.
  - simpl in Hy. rewrite decide_False by lia. f_equal.
    apply np_interp_from_skip; [|lia].
    eapply Forall_impl; [apply H1|]. intros; simpl in *; lia.
Qed.

Lemma length_interpolate s : length (interpolate s) = length s.
Proof.
  unfold interpolate. destruct (valid_from 0 s) as [|[x0 f0] pts]; [done|].
  apply length_imap.
Qed.

(** A numeric value is kept. *)
Lemma interpolate_lookup_Some s j v :
  s !! j = Some (Some v) → interpolate s !! j = Some (Some v).
Proof.
  intros Hj. unfold interpolate. destruct (valid_from 0 s) as [|[x0 f0] pts]; [done|].
  rewrite list_lookup_imap, Hj. done.
Qed.

(** A missing value to the right of a numeric position takes the value
    of [np.interp] from the last point before it. *)
Lemma interpolate_lookup_NaN s j pts1 x1 f1 pts2 :
  s !! j = Some None →
  valid_from 0 s = pts1 ++ (x1, f1) :: pts2 →
  Forall (λ p, p.1 < j)%nat (pts1 ++ [(x1, f1)]) →
  interpolate s !! j = Some (Some (np_interp_from j x1 f1 pts2)).
Proof.
  intros Hj Hv Hlt. unfold interpolate.
  pose proof (np_interp_skip j pts1 x1 f1 pts2 Hlt) as Hnp. rewrite <-Hv in Hnp.
  destruct (valid_from 0 s) as [|[x0 f0] pts] eqn:Hvs.
  - by destruct pts1.
  - rewrite list_lookup_imap, Hj. simpl.
    rewrite decide_False; [by rewrite Hnp|].
    assert (x0 < j)%nat; [|lia].
    rewrite Forall_app, Forall_singleton in Hlt. destruct Hlt as [H1 H2].
    destruct pts1 as [|[y g] pts1]; simplify_eq/=; [done|].
    by apply Forall_cons in H1 as [? _].
Qed.

(** After interpolation a position holds a number exactly from the first
    numeric position of the column on. *)
Lemma interpolate_is_Some s x0 f0 pts j :
  valid_from 0 s = (x0, f0) :: pts →
  (∃ w, interpolate s !! j = Some (Some w)) ↔ (x0 ≤ j < length s)%nat.
Proof.
  intros Hv. unfold interpolate. rewrite Hv, list_lookup_imap. split.
  - intros [w Hw]. destruct (s !! j) as [[v|]|] eqn:Hj; [| |done].
    + split; [|by eapply lookup_lt_Some].
      by apply (valid_from_head 0 s x0 f0 pts j v).
    + simpl in Hw. destruct (decide (j < x0)%nat); [done|].
      split; [lia|by eapply lookup_lt_Some].
  - intros [H1 H2]. destruct (lookup_lt_is_Some_2 s j H2) as [[v|] ->]; simpl; [eauto|].
    rewrite decide_False by lia. unfold np_interp. eauto.
Qed.

Lemma interpolate_prefix s i j v :
  interpolate s !! i = Some (Some v) → (i ≤ j < length s)%nat →
  ∃ w, interpolate s !! j = Some (Some w).
Proof.
  intros Hi Hj. destruct (valid_from 0 s) as [|[x0 f0] pts] eqn:Hv.
  - unfold interpolate in Hi. rewrite Hv in Hi.
    apply valid_from_nil_inv in Hv. rewrite Forall_lookup in Hv.
    by specialize (Hv _ _ Hi).
  - apply (interpolate_is_Some _ _ _ _ _ Hv).
    assert (x0 ≤ i < length s)%nat; [|lia].
    apply (interpolate_is_Some _ _ _ _ _ Hv). eauto.
Qed.

Lemma of_nat_lt_ne i k : (i < k)%nat → (of_nat k - of_nat i)%Qc ≠ 0%Qc.
Proof.
  intros Hik Heq. unfold of_nat in Heq.
  rewrite <-Z2Qc_inj_sub, <-Z2Qc_inj_0 in Heq. apply Z2Qc_inj in Heq. lia.
Qed.

Lemma interpolate_between s i j k a b :
  (i < j < k)%nat → s !! i = Some (Some a) → s !! k = Some (Some b) →
  (∀ m, (i < m < k)%nat → s !! m = Some None) →
  interpolate s !! j =
    Some (Some (a + (b - a) * (of_nat j - of_nat i) / (of_nat k - of_nat i))%Qc).
Proof.
  intros Hijk Hi Hk Hgap.
  pose proof (lookup_lt_Some _ _ _ Hk) as Hlen.
  assert (valid_from (S i) (drop (S i) s)
          = (k, b) :: valid_from (S k) (drop (S k) s)) as Hrest.
  { rewrite (valid_from_gap (S i) (drop (S i) s) (k - S i) b).
    - rewrite drop_drop. replace (S i + (k - S i))%nat with k by lia.
      by replace (S i + S (k - S i))%nat with (S k) by lia.
    - rewrite lookup_drop. by replace (S i + (k - S i))%nat with k by lia.
    - intros m Hm. rewrite lookup_drop. apply Hgap. lia. }
  rewrite (interpolate_lookup_NaN s j (valid_from 0 (take i s)) i a
             ((k, b) :: valid_from (S k) (drop (S k) s))).
  - simpl. rewrite decide_True by lia. do 2 f_equal.
    pose proof (of_nat_lt_ne i k ltac:(lia)). field. done.
  - apply Hgap. lia.
  - by rewrite (valid_from_split s i a Hi), Hrest.
  - apply Forall_app. split; [|apply Forall_singleton; simpl; lia].
    eapply Forall_impl; [apply valid_from_bounds|].
    intros p. rewrite length_take. simpl. lia.
Qed.

Lemma interpolate_after_last s p j v :
  s !! p = Some (Some v) → (p < j < length s)%nat →
  (∀ m, (p < m < length s)%nat → s !! m = Some None) →
  interpolate s !! j = Some (Some v).
Proof.
  intros Hp Hj Htail.
  rewrite (interpolate_lookup_NaN s j (valid_from 0 (take p s)) p v []).
  - done.
  - apply Htail. lia.
  - rewrite (valid_from_split s p v Hp). do 2 f_equal.
    apply valid_from_all_NaN, Forall_lookup. intros m x Hm.
    rewrite lookup_drop in Hm. pose proof (lookup_lt_Some _ _ _ Hm).
    rewrite Htail in Hm by lia. congruence.
  - apply Forall_app. split; [|apply Forall_singleton; simpl; lia].
    eapply Forall_impl; [apply valid_from_bounds|].
    intros q. rewrite length_take. simpl. lia.
Qed.

End interpolation.

(** * The filled column (lines 50 and 55) *)

Section filled.

Implicit Types (s : Series) (i j k p : nat).

Lemma length_USDtoZAR_Fill s : length (USDtoZAR_Fill s) = length s.
Proof. unfold USDtoZAR_Fill. by rewrite length_interpolate, rolling_fill_id. Qed.

(** C3. After the two fill steps a position at or after a position that
    holds a number, in the raw column or in the filled one, holds a number:
    the positions left missing are a prefix of the date axis. The axis
    itself is unchanged. *)
Theorem fill_missing_only_prefix s i j v :
  s !! i = Some (Some v) ∨ USDtoZAR_Fill s !! i = Some (Some v) →
  (i ≤ j < length s)%nat →
  (∃ w, USDtoZAR_Fill s !! j = Some (Some w)) ∧
  length (USDtoZAR_Fill s) = length s.
Proof.
  intros Hi Hj. split; [|apply length_USDtoZAR_Fill].
  unfold USDtoZAR_Fill in *. rewrite rolling_fill_id in *.
  destruct Hi as [Hi%interpolate_lookup_Some|Hi];
    by apply (interpolate_prefix s i j v).
Qed.

Lemma fill_missing_only_prefix_witness :
  ∃ w, USDtoZAR_Fill gap_at_both_ends !! 5%nat = Some (Some w).
Proof.
  apply (fill_missing_only_prefix gap_at_both_ends 2 5 (q 10 1)).
  - left. vm_compute. reflexivity.
  - vm_compute. lia.
Defined.

(** C4. A date that is still missing after the rolling-mean step and
    lies between two dates that hold a number then, with nothing but
    missing values between them, takes the value of the straight line
    through these two; and [10, NaN, NaN, NaN, 15] is filled to
    [10, 11.25, 12.5, 13.75, 15]. *)
Theorem fill_linear_between s i j k a b :
  (i < j < k)%nat →
  rolling_fill s !! i = Some (Some a) → rolling_fill s !! k = Some (Some b) →
  (∀ m, (i < m < k)%nat → rolling_fill s !! m = Some None) →
  USDtoZAR_Fill s !! j =
    Some (Some (a + (b - a) * (of_nat j - of_nat i) / (of_nat k - of_nat i))%Qc) ∧
  USDtoZAR_Fill [Some (q 10 1); None; None; None; Some (q 15 1)]
    = [Some (q 10 1); Some (q 1125 100); Some (q 125 10); Some (q 1375 100); Some (q 15 1)].
Proof.
  intros Hijk Hi Hk Hgap. split; [|by_compute].
  unfold USDtoZAR_Fill. by apply interpolate_between.
Qed.

Lemma fill_linear_between_witness :
  USDtoZAR_Fill five_days !! 2%nat =
    Some (Some (q 10 1 + (q 15 1 - q 10 1) * (of_nat 2 - of_nat 0) / (of_nat 4 - of_nat 0))%Qc).
Proof.
  apply (fill_linear_between five_days 0 2 4 (q 10 1) (q 15 1)).
  - lia.
  - vm_compute. reflexivity.
  - vm_compute. reflexivity.
  - intros m Hm. destruct m as [|[|[|[|m]]]]; try lia; vm_compute; reflexivity.
Defined.

(** C10. Every date after the last date that holds an observed rate is
    filled with that last observed rate. *)
Theorem fill_after_last_observed s p j v :
  s !! p = Some (Some v) →
  (∀ m, (p < m < length s)%nat → s !! m = Some None) →
  (p < j < length s)%nat →
  USDtoZAR_Fill s !! j = Some (Some v).
Proof.
  intros Hp Htail Hj. unfold USDtoZAR_Fill. rewrite rolling_fill_id.
  by apply (interpolate_after_last s p j v).
Qed.

Lemma fill_after_last_observed_witness :
  USDtoZAR_Fill gap_at_both_ends !! 6%nat = Some (Some (q 15 1)).
Proof.
  apply (fill_after_last_observed gap_at_both_ends 4 6 (q 15 1)).
  - vm_compute. reflexivity.
  - intros m Hm. vm_compute in Hm.
    destruct m as [|[|[|[|[|[|[|m]]]]]]]; try lia; vm_compute; reflexivity.
  - vm_compute. lia.
Defined.

End filled.

(** * Left joins (lines 46 and 63) *)

Section joins.

Implicit Types (lk rk : list (option cell)) (k : option cell) (i j n r : nat).

Lemma positions_from_notin j k rk : k ∉ rk → positions_from j k rk = [].
Proof.
  revert j. induction rk as [|k' rk IH]; intros j Hk; simpl; [done|].
  apply not_elem_of_cons in Hk as [Hne Hk]. rewrite decide_False by done. auto.
Qed.

(** With distinct right keys a key has at most one right row, the one
    that [list_find] returns. *)
Lemma positions_from_NoDup j k rk :
  NoDup rk →
  positions_from j k rk =
    from_option (λ p, [(j + p.1)%nat]) [] (list_find (λ x, x = k) rk).
Proof.
  intros Hnd. revert j. induction Hnd as [|k' rk Hk' Hnd IH]; intros j; simpl; [done|].
  case_decide as Hk; subst; simpl.
  - rewrite positions_from_notin by done. by rewrite Nat.add_0_r.
  - rewrite IH. destruct (list_find _ rk) as [[r x]|]; simpl; [|done].
    do 2 f_equal. lia.
Qed.

Lemma left_join_from_NoDup i lk rk :
  NoDup rk →
  left_join_from i lk rk =
    imap (λ n k, ((i + n)%nat, fst <$> list_find (λ x, x = k) rk)) lk.
Proof.
  intros Hnd. revert i. induction lk as [|k lk IH]; intros i; simpl; [done|].
  rewrite IH, positions_from_NoDup by done. rewrite Nat.add_0_r.
  destruct (list_find _ rk) as [[r x]|]; simpl; f_equal;
    apply imap_ext; intros n y _; simpl; f_equal; lia.
Qed.

Lemma left_join_from_bounds i lk rk :
  Forall (λ p, i ≤ p.1 < i + length lk)%nat (left_join_from i lk rk).
Proof.
  revert i. induction lk as [|k lk IH]; intros i; simpl; [constructor|].
  apply Forall_app. split.
  - assert (Forall (λ p : nat * option nat, p.1 = i)
              (match positions_from 0 k rk with
               | [] => [(i, None)]
               | js => (λ j, (i, Some j)) <$> js
               end)) as Hi.
    { destruct (positions_from 0 k rk); [by repeat constructor|].
      by apply Forall_fmap, Forall_forall. }
    eapply Forall_impl; [apply Hi|]. intros; simpl in *; lia.
  - eapply Forall_impl; [apply IH|]. intros; simpl in *; lia.
Qed.

Lemma left_join_from_app i l1 l2 rk :
  left_join_from i (l1 ++ l2) rk =
    left_join_from i l1 rk ++ left_join_from (i + length l1) l2 rk.
Proof.
  revert i. induction l1 as [|k l1 IH]; intros i; simpl.
  - by rewrite Nat.add_0_r.
  - rewrite IH, <-app_assoc. do 3 f_equal. lia.
Qed.

(** A left row whose key is in no right row is in the join exactly
    once, with no right row. *)
Lemma left_join_unmatched lk rk n k :
  lk !! n = Some k → k ∉ rk →
  ∃ r, left_join_from 0 lk rk !! r = Some (n, None) ∧
       ∀ r' p, left_join_from 0 lk rk !! r' = Some p → p.1 = n → r' = r.
Proof.
  intros Hn Hk. pose proof (lookup_lt_Some _ _ _ Hn) as Hlen.
  rewrite <-(take_drop_middle lk n k Hn).
  rewrite left_join_from_app. simpl. rewrite positions_from_notin by done.
  rewrite length_take_le by lia. simpl.
  pose proof (left_join_from_bounds 0 (take n lk) rk) as Hl.
  pose proof (left_join_from_bounds (S n) (drop (S n) lk) rk) as Hr.
  rewrite length_take_le in Hl by lia.
  set (L := left_join_from 0 (take n lk) rk) in *.
  set (R := left_join_from (S n) (drop (S n) lk) rk) in *.
  exists (length L). split; [by rewrite list_lookup_middle|].
  intros r' p Hp Hpn. rewrite Forall_lookup in Hl, Hr.
  destruct (decide (r' < length L)%nat) as [Hlt|Hge].
  - rewrite lookup_app_l in Hp by done. specialize (Hl _ _ Hp). lia.
  - rewrite lookup_app_r in Hp by lia.
    destruct (r' - length L)%nat as [|m] eqn:Hm; [lia|].
    simpl in Hp. specialize (Hr _ _ Hp). lia.
Qed.

(** Every left row is in the join. *)
Lemma left_join_keeps lk rk n :
  (n < length lk)%nat → ∃ r o, left_join_from 0 lk rk !! r = Some (n, o).
Proof.
  intros Hlen. destruct (lookup_lt_is_Some_2 lk n Hlen) as [k Hn].
  rewrite <-(take_drop_middle lk n k Hn).
  rewrite left_join_from_app. simpl. rewrite length_take_le by lia.
  set (L := left_join_from 0 (take n lk) rk).
  destruct (positions_from 0 k rk) as [|j js].
  - exists (length L), None. simpl. by rewrite list_lookup_middle.
  - exists (length L), (Some j). simpl. by rewrite list_lookup_middle.
Qed.

Lemma take_opt_lookup {A} (l : list (option A)) ix r :
  take_opt l ix !! r = (λ oi, i ← oi; mjoin (l !! i)) <$> ix !! r.
Proof. unfold take_opt. apply list_lookup_fmap. Qed.

Lemma length_take_opt {A} (l : list (option A)) ix : length (take_opt l ix) = length ix.
Proof. unfold take_opt. apply length_fmap. Qed.

(** Taking every position once in order gives the column back. *)
Lemma take_opt_seq {A} (l : list (option A)) :
  take_opt l (Some <$> seq 0 (length l)) = l.
Proof.
  apply list_eq. intros i. rewrite take_opt_lookup, list_lookup_fmap.
  destruct (decide (i < length l)%nat) as [Hlt|Hge].
  - rewrite lookup_seq_lt by done. simpl.
    destruct (lookup_lt_is_Some_2 l i Hlt) as [x ->]. done.
  - rewrite lookup_seq_ge by lia. simpl. symmetry. apply lookup_ge_None. lia.
Qed.

Lemma left_indexer_NoDup lk rk :
  NoDup rk → left_indexer (left_join_from 0 lk rk) = Some <$> seq 0 (length lk).
Proof.
  intros Hnd. rewrite left_join_from_NoDup by done. unfold left_indexer.
  apply list_eq. intros i. rewrite !list_lookup_fmap, list_lookup_imap.
  destruct (decide (i < length lk)%nat) as [Hlt|Hge].
  - rewrite lookup_seq_lt by done.
    destruct (lookup_lt_is_Some_2 lk i Hlt) as [x ->]. done.
  - rewrite lookup_seq_ge by lia. rewrite (proj2 (lookup_ge_None lk i)) by lia. done.
Qed.

Lemma right_indexer_NoDup lk rk :
  NoDup rk →
  right_indexer (left_join_from 0 lk rk) = (λ k, fst <$> list_find (λ x, x = k) rk) <$> lk.
Proof.
  intros Hnd. rewrite left_join_from_NoDup by done. unfold right_indexer.
  apply list_eq. intros i. rewrite !list_lookup_fmap, list_lookup_imap.
  by destruct (lk !! i).
Qed.

End joins.

(** * Monthly periods and their labels *)

Section periods.

Lemma string_length_app (s1 s2 : string) :
  String.length (s1 +:+ s2) = (String.length s1 + String.length s2)%nat.
Proof. induction s1 as [|a s1 IH]; simpl; [done|]. by rewrite IH. Qed.

(** Two concatenations with suffixes of the same length agree part by
    part. *)
Lemma string_app_inj_suffix (s1 s2 t1 t2 : string) :
  String.length t1 = String.length t2 → s1 +:+ t1 = s2 +:+ t2 → s1 = s2 ∧ t1 = t2.
Proof.
  intros Hlen. revert s2. induction s1 as [|a s1 IH]; intros [|b s2]; simpl; intros Heq.
  - done.
  - pose proof (f_equal String.length Heq) as H.
    rewrite !string_length_app in H. simpl in H. lia.
  - pose proof (f_equal String.length Heq) as H.
    rewrite !string_length_app in H. simpl in H. lia.
  - injection Heq as -> Heq. destruct (IH _ Heq) as [-> ->]. done.
Qed.

Lemma month_cases (m : Z) :
  1 ≤ m ≤ 12 →
  m = 1 ∨ m = 2 ∨ m = 3 ∨ m = 4 ∨ m = 5 ∨ m = 6 ∨
  m = 7 ∨ m = 8 ∨ m = 9 ∨ m = 10 ∨ m = 11 ∨ m = 12.
Proof. lia. Qed.

Lemma month_str_length (m : Z) :
  1 ≤ m ≤ 12 → String.length (month_str m) = 2%nat.
Proof. intros H%month_cases. destruct_or!; subst; reflexivity. Qed.

Lemma month_str_inj (m1 m2 : Z) :
  1 ≤ m1 ≤ 12 → 1 ≤ m2 ≤ 12 → month_str m1 = month_str m2 → m1 = m2.
Proof.
  intros H1%month_cases H2%month_cases.
  destruct_or!; subst; first [reflexivity | intros [=]].
Qed.

Global Instance period_str_inj : Inj (=) (=) period_str.
Proof.
  intros p1 p2. unfold period_str.
  pose proof (Z.mod_pos_bound p1 12 ltac:(lia)) as Hm1.
  pose proof (Z.mod_pos_bound p2 12 ltac:(lia)) as Hm2.
  intros [Hy Hm]%string_app_inj_suffix.
  - apply (inj pretty) in Hy. apply (inj (String.app "-")) in Hm.
    apply month_str_inj in Hm; [|lia..].
    rewrite (Z.div_mod p1 12), (Z.div_mod p2 12) by lia. lia.
  - rewrite !string_length_app, !month_str_length by lia. done.
Qed.

End periods.

(** * Group means (line 59) *)

Section groups.

Implicit Types (keys : list (option Z)) (vals : Series) (k M : Z).

Lemma NoDup_group_keys keys : NoDup (group_keys keys).
Proof.
  unfold group_keys. rewrite merge_sort_Permutation. apply NoDup_remove_dups.
Qed.

Lemma elem_of_group_keys keys k : k ∈ group_keys keys ↔ Some k ∈ keys.
Proof.
  unfold group_keys. rewrite merge_sort_Permutation, elem_of_remove_dups.
  rewrite list_elem_of_omap. split; [by intros ([x|] & ? & [= <-])|].
  intros H. by exists (Some k).
Qed.

Lemma groupby_mean_keys keys vals : (groupby_mean keys vals).*1 = group_keys keys.
Proof.
  unfold groupby_mean. induction (group_keys keys) as [|k l IH]; simpl; by f_equal.
Qed.

Lemma groupby_mean_lookup keys vals r k :
  group_keys keys !! r = Some k →
  (groupby_mean keys vals).*2 !! r = Some (mean_skipna (group_values k keys vals)).
Proof.
  intros Hr. unfold groupby_mean. rewrite <-list_fmap_compose, list_lookup_fmap, Hr.
  done.
Qed.

(** The numbers of a group are the numbers of the days of the month. *)
Lemma group_values_month M dates (filled : Series) :
  omap id (group_values M (option_map to_period_M <$> dates) filled)
  = month_values M dates filled.
Proof.
  unfold group_values, month_values. revert filled.
  induction dates as [|d dates IH]; intros [|v filled]; try done.
  specialize (IH filled).
  change (zip (option_map to_period_M <$> d :: dates) (v :: filled))
    with ((option_map to_period_M d, v) :: zip (option_map to_period_M <$> dates) filled).
  change (zip (d :: dates) (v :: filled)) with ((d, v) :: zip dates filled).
  rewrite filter_cons.
  destruct (decide ((option_map to_period_M d, v).1 = Some M)) as [HM|HM];
    destruct d as [d|]; simpl in HM; try done; csimpl.
  - injection HM as HM. rewrite decide_True by done. rewrite IH. done.
  - rewrite decide_False by congruence. done.
Qed.

End groups.

(** * The frames of the script *)

Section frames.

Variable to_datetime : string → result Z.

Implicit Types (dates : list (option Z)) (usd filled avgs : Series) (months : list Z).

Lemma fmap_month_label dates :
  (λ o, Some (from_option period_str "NaT" o)) <$> (option_map to_period_M <$> dates)
  = month_label <$> dates.
Proof. by rewrite <-list_fmap_compose. Qed.

(** Line 34-36. *)
Lemma make_df_eq data ds :
  to_datetime_all to_datetime (Some <$> data.*1) = Ok ds →
  make_df to_datetime data
  = Ok (rates_frame (take_opt ds (Some <$> argsort ds))
          (take_opt (Some <$> data.*2) (Some <$> argsort ds))).
Proof. intros Hds. unfold make_df. simpl. rewrite Hds. done. Qed.

Lemma make_df_inv data df :
  make_df to_datetime data = Ok df →
  ∃ ds, to_datetime_all to_datetime (Some <$> data.*1) = Ok ds ∧
        df = rates_frame (take_opt ds (Some <$> argsort ds))
               (take_opt (Some <$> data.*2) (Some <$> argsort ds)).
Proof.
  intros Hdf. destruct (to_datetime_all to_datetime (Some <$> data.*1)) as [ds|e] eqn:Hds.
  - rewrite (make_df_eq _ _ Hds) in Hdf. exists ds. by simplify_eq.
  - unfold make_df in Hdf. simpl in Hdf. by rewrite Hds in Hdf.
Qed.

(** Lines 40-58. *)
Lemma make_df_full_eq today dl vl start :
  min_date dl = Some start →
  let ix := left_join_from 0 (cells (DateCol (Some <$> date_range start today)))
              (cells (DateCol dl)) in
  let usd := take_opt vl (right_indexer ix) in
  make_df_full today (rates_frame dl vl)
  = Ok (daily_frame (take_opt (Some <$> date_range start today) (left_indexer ix))
          usd (USDtoZAR_Fill usd)).
Proof. intros Hmin. unfold make_df_full. simpl. rewrite Hmin. done. Qed.

Lemma make_df_full_inv today dl vl df_full :
  make_df_full today (rates_frame dl vl) = Ok df_full →
  ∃ dates usd, df_full = daily_frame dates usd (USDtoZAR_Fill usd) ∧
               length usd = length dates.
Proof.
  intros Hdf. destruct (min_date dl) as [start|] eqn:Hmin.
  - rewrite (make_df_full_eq today dl vl start Hmin) in Hdf. simplify_eq.
    eexists _, _. split; [done|]. rewrite !length_take_opt.
    unfold left_indexer, right_indexer. by rewrite !length_fmap.
  - unfold make_df_full in Hdf. simpl in Hdf. by rewrite Hmin in Hdf.
Qed.

(** Lines 59-60. *)
Lemma make_monthly_avg_df_eq dates usd filled :
  make_monthly_avg_df (daily_frame dates usd filled)
  = Ok (monthly_frame (group_keys (option_map to_period_M <$> dates))
          (groupby_mean (option_map to_period_M <$> dates) filled).*2).
Proof.
  unfold make_monthly_avg_df, groupby_mean_reset_index, daily_frame, monthly_frame. simpl.
  by rewrite groupby_mean_keys, <-list_fmap_compose.
Qed.

(** Lines 63-64. *)
Lemma merge_daily_monthly_eq dates usd filled months avgs :
  merge_daily_monthly (daily_frame dates usd filled) (monthly_frame months avgs)
  = Ok (merged_frame dates usd filled (month_label <$> dates) months avgs
          (month_join dates months)).
Proof.
  unfold merge_daily_monthly, merge_left_on, daily_frame, monthly_frame. simpl.
  rewrite fmap_month_label.
  rewrite decide_True by (unfold col_length; simpl; by rewrite !length_fmap).
  done.
Qed.

(** Lines 66-73. *)
Lemma drop_rename_eq dates usd filled labels months avgs ix :
  (combined_df ← drop_columns (merged_frame dates usd filled labels months avgs ix)
                   ["YearMonth"; "YearMonth_daily"; "YearMonth_monthly"];
   Ok (rename combined_df [("USDtoZAR_Fill_daily", "USDtoZAR_Fill");
                           ("USDtoZAR_Fill_monthly", "USDtoZAR_MonthlyAver")]))
  = Ok (combined_frame (take_opt dates (left_indexer ix)) (take_opt usd (left_indexer ix))
          (take_opt filled (left_indexer ix)) (take_opt avgs (right_indexer ix))).
Proof. reflexivity. Qed.

Lemma list_find_eq_NoDup {A} `{EqDecision A} (l : list A) r k :
  NoDup l → l !! r = Some k → list_find (λ x, x = k) l = Some (r, k).
Proof.
  intros Hnd Hr. apply list_find_Some. split; [done|]. split; [done|].
  intros j y Hj Hlt ->. pose proof (NoDup_lookup _ _ _ _ Hnd Hj Hr). lia.
Qed.

Lemma month_keys_eq months :
  cells (StrCol ((λ M, Some (period_str M)) <$> months))
  = (λ M, Some (CStr (period_str M))) <$> months.
Proof. simpl. by rewrite <-list_fmap_compose. Qed.

Lemma NoDup_month_keys months :
  NoDup months → NoDup (cells (StrCol ((λ M, Some (period_str M)) <$> months))).
Proof.
  intros Hnd. rewrite month_keys_eq. apply NoDup_fmap_2; [|done].
  intros x y [= Hxy]. by apply (inj period_str).
Qed.

(** With one row per month, the join pairs the daily row [i] with the
    row of its month. *)
Lemma right_indexer_month dates months i d r :
  NoDup months → dates !! i = Some (Some d) → months !! r = Some (to_period_M d) →
  right_indexer (month_join dates months) !! i = Some (Some r).
Proof.
  intros Hnd Hi Hr. pose proof (NoDup_month_keys months Hnd) as Hrk.
  assert (cells (StrCol ((λ M, Some (period_str M)) <$> months)) !! r
          = Some (Some (CStr (period_str (to_period_M d))))) as Hrkr.
  { rewrite month_keys_eq, list_lookup_fmap, Hr. done. }
  assert (cells (StrCol (month_label <$> dates)) !! i
          = Some (Some (CStr (period_str (to_period_M d))))) as Hlk.
  { simpl. rewrite !list_lookup_fmap, Hi. done. }
  unfold month_join.
  set (rk := cells (StrCol ((λ M, Some (period_str M)) <$> months))) in *.
  rewrite right_indexer_NoDup by done.
  rewrite list_lookup_fmap, Hlk. simpl.
  by rewrite (list_find_eq_NoDup rk r _ Hrk Hrkr).
Qed.

Lemma nrows_daily_frame dates usd filled : nrows (daily_frame dates usd filled) = length dates.
Proof. unfold nrows, col_length. simpl. by rewrite length_fmap. Qed.

(** The merge of the daily frame with its own monthly averages. *)
Lemma merge_own_averages dates usd filled :
  length usd = length dates → length filled = length dates →
  let periods := option_map to_period_M <$> dates in
  let months := group_keys periods in
  let avgs := (groupby_mean periods filled).*2 in
  let ix := month_join dates months in
  take_opt dates (left_indexer ix) = dates ∧
  take_opt usd (left_indexer ix) = usd ∧
  take_opt filled (left_indexer ix) = filled ∧
  length (take_opt avgs (right_indexer ix)) = length dates ∧
  ∀ i d, dates !! i = Some (Some d) →
    take_opt avgs (right_indexer ix) !! i
    = Some (mean_skipna (group_values (to_period_M d) periods filled)).
Proof.
  intros Hu Hf periods months avgs ix.
  assert (NoDup months) as Hnd by apply NoDup_group_keys.
  assert (left_indexer ix = Some <$> seq 0 (length dates)) as Hix.
  { unfold ix, month_join. rewrite left_indexer_NoDup by by apply NoDup_month_keys.
    simpl. by rewrite !length_fmap. }
  rewrite Hix. split; [apply take_opt_seq|].
  split; [rewrite <-Hu; apply take_opt_seq|].
  split; [rewrite <-Hf; apply take_opt_seq|]. split.
  - rewrite length_take_opt. unfold right_indexer. rewrite length_fmap.
    rewrite <-(length_fmap (λ p : nat * option nat, Some p.1) ix).
    fold (left_indexer ix). rewrite Hix. by rewrite length_fmap, length_seq.
  - intros i d Hi.
    assert (to_period_M d ∈ months) as [r Hr]%list_elem_of_lookup.
    { apply elem_of_group_keys, list_elem_of_lookup. exists i.
      unfold periods. rewrite list_lookup_fmap, Hi. done. }
    rewrite take_opt_lookup. unfold ix.
    rewrite (right_indexer_month dates months i d r Hnd Hi Hr). simpl.
    unfold avgs. rewrite (groupby_mean_lookup _ _ _ _ Hr). done.
Qed.

(** Lines 63-73. *)
Lemma make_combined_df_eq dates usd filled months avgs :
  let ix := month_join dates months in
  make_combined_df (daily_frame dates usd filled) (monthly_frame months avgs)
  = Ok (combined_frame (take_opt dates (left_indexer ix)) (take_opt usd (left_indexer ix))
          (take_opt filled (left_indexer ix)) (take_opt avgs (right_indexer ix))).
Proof.
  intros ix. unfold make_combined_df. rewrite merge_daily_monthly_eq.
  apply drop_rename_eq.
Qed.

(** Whatever the script computes, [combined_df] has this shape. *)
Lemma process_inv today data combined_df :
  process to_datetime today data = Ok combined_df →
  ∃ dates usd avgs,
    combined_df = combined_frame dates usd (USDtoZAR_Fill usd) avgs ∧
    length usd = length dates ∧ length avgs = length dates.
Proof.
  unfold process. intros H.
  destruct (make_df to_datetime data) as [df|] eqn:Hdf; [|done].
  apply make_df_inv in Hdf as (ds & _ & ->). rewrite bind_Ok in H.
  destruct (make_df_full today _) as [df_full|] eqn:Hfull; [|done].
  apply make_df_full_inv in Hfull as (dates & usd & -> & Hlen).
  rewrite bind_Ok, make_monthly_avg_df_eq, bind_Ok, make_combined_df_eq in H.
  injection H as <-.
  destruct (merge_own_averages dates usd (USDtoZAR_Fill usd) Hlen)
    as (-> & -> & -> & Havgs & _); [by rewrite length_USDtoZAR_Fill|].
  eexists _, _, _. split; [reflexivity|]. split; [done|]. exact Havgs.
Qed.

Lemma to_datetime_all_Some (names : list string) :
  Forall (λ s, ∃ d, to_datetime s = Ok d) names →
  ∃ ds, to_datetime_all to_datetime (Some <$> names) = Ok (Some <$> ds) ∧
        length ds = length names.
Proof.
  induction 1 as [|s names [d Hd] _ (ds & IH & Hlen)]; [by exists []|].
  exists (d :: ds). split; [|simpl; by rewrite Hlen].
  rewrite fmap_cons. cbn [to_datetime_all]. by rewrite Hd, bind_Ok, IH, bind_Ok.
Qed.

Lemma argsort_Permutation (l : list (option Z)) : argsort l ≡ₚ seq 0 (length l).
Proof.
  unfold argsort. rewrite merge_sort_Permutation.
  assert (∀ n, (imap (λ i d, (d, (n + i)%nat)) l).*2 = seq n (length l)) as H.
  { induction l as [|x l IH]; intros n; simpl; [done|]. f_equal; [lia|].
    rewrite <-(IH (S n)). f_equal. apply imap_ext. intros; simpl. f_equal. lia. }
  by rewrite <-(H 0%nat).
Qed.

Lemma min_date_is_Some (l : list (option Z)) d : Some d ∈ l → is_Some (min_date l).
Proof.
  induction l as [|[x|] l IH]; simpl.
  - by intros ?%elem_of_nil.
  - intros _. destruct (min_date l); eauto.
  - intros [?|H]%elem_of_cons; [done|]. by apply IH.
Qed.

(** The script computes [combined_df] whenever the feed gives at least
    one rate and every date of it is read by [pd.to_datetime]. *)
Lemma process_returns today data :
  data ≠ [] → Forall (λ e, ∃ d, to_datetime e.1 = Ok d) data →
  ∃ combined_df, process to_datetime today data = Ok combined_df.
Proof.
  intros Hne Hparse.
  destruct (to_datetime_all_Some data.*1) as (ds & Hds & Hlen).
  { by apply Forall_fmap. }
  unfold process. rewrite (make_df_eq _ _ Hds), bind_Ok.
  set (dl := take_opt (Some <$> ds) (Some <$> argsort (Some <$> ds))).
  assert (is_Some (min_date dl)) as [start Hmin].
  { destruct ds as [|d ds]; [by destruct data|].
    apply (min_date_is_Some _ d). unfold dl, take_opt.
    apply list_elem_of_fmap. exists (Some 0%nat). split; [done|].
    apply list_elem_of_fmap. exists 0%nat. split; [done|].
    rewrite argsort_Permutation. simpl. apply elem_of_cons. by left. }
  rewrite (make_df_full_eq today dl _ start Hmin), bind_Ok.
  rewrite make_monthly_avg_df_eq, bind_Ok, make_combined_df_eq. eauto.
Qed.

Lemma mean_skipna_month M dates filled :
  mean_skipna (group_values M (option_map to_period_M <$> dates) filled)
  = month_mean M dates filled.
Proof. unfold mean_skipna, month_mean. by rewrite group_values_month. Qed.

(** C5, as stated, fails: a month whose filled values are all missing
    has a row in the monthly averages, with a missing average. Here
    January 2020 has two days, both missing after the fill. *)
Lemma all_missing_month_has_row :
  USDtoZAR_Fill [None; None; Some (q 10 1)] = [None; None; Some (q 10 1)] ∧
  option_map period_str <$> (option_map to_period_M <$> three_days)
    = [Some "2020-01"; Some "2020-01"; Some "2020-02"] ∧
  make_monthly_avg_df
    (daily_frame three_days [None; None; Some (q 10 1)] [None; None; Some (q 10 1)])
  = Ok [("YearMonth", StrCol [Some "2020-01"; Some "2020-02"]);
        ("USDtoZAR_Fill", FloatCol [None; Some (q 10 1)])].
Proof. repeat split; by_compute. Qed.

(** C5, amended. The monthly averages have exactly one row for each
    year and month of the daily frame. Its average is the arithmetic
    mean of the filled values of the days of the month that are not
    missing; a month whose filled values are all missing has a row as
    well, with a missing average. *)
Theorem monthly_average_rows dates usd filled :
  ∃ months avgs,
    make_monthly_avg_df (daily_frame dates usd filled) = Ok (monthly_frame months avgs) ∧
    NoDup months ∧ length avgs = length months ∧
    (∀ M, M ∈ months ↔ ∃ d, Some d ∈ dates ∧ to_period_M d = M) ∧
    (∀ r M, months !! r = Some M →
       avgs !! r = Some (if decide (month_values M dates filled = []) then None
                         else Some (sum_floats (month_values M dates filled)
                                    / of_nat (length (month_values M dates filled)))%Qc)).
Proof.
  exists (group_keys (option_map to_period_M <$> dates)),
         (groupby_mean (option_map to_period_M <$> dates) filled).*2.
  split; [apply make_monthly_avg_df_eq|]. split; [apply NoDup_group_keys|].
  split; [by rewrite <-(groupby_mean_keys _ filled), !length_fmap|]. split.
  - intros M. rewrite elem_of_group_keys, list_elem_of_fmap. split.
    + intros ([d|] & HM & Hd); [|done]. exists d. by simplify_eq/=.
    + intros (d & Hd & <-). by exists (Some d).
  - intros r M Hr. rewrite (groupby_mean_lookup _ _ _ _ Hr), mean_skipna_month. done.
Qed.

Lemma monthly_average_rows_witness :
  ∃ months avgs,
    make_monthly_avg_df (daily_frame three_days [None; None; Some (q 10 1)]
                           [Some (q 8 1); Some (q 9 1); Some (q 10 1)])
    = Ok (monthly_frame months avgs) ∧ NoDup months.
Proof.
  destruct (monthly_average_rows three_days [None; None; Some (q 10 1)]
              [Some (q 8 1); Some (q 9 1); Some (q 10 1)]) as (months & avgs & H & Hnd & _).
  by exists months, avgs.
Defined.

Lemma nrows_merged_frame dates usd filled labels months avgs ix :
  nrows (merged_frame dates usd filled labels months avgs ix) = length ix.
Proof.
  unfold nrows, col_length. simpl. rewrite length_fmap, length_take_opt.
  unfold left_indexer. by rewrite length_fmap.
Qed.

(** C8. For the frames of a run, the merge of lines 63-64 returns a
    frame with as many rows as [df_full], whose daily columns are those
    of [df_full] row by row, each row with the average of its month.
    And whatever the month rows are, every daily row is in the join,
    and a daily row whose month has no row is in it exactly once, with a
    missing monthly average. *)
Theorem merge_keeps_daily_rows today data df df_full :
  make_df to_datetime data = Ok df → make_df_full today df = Ok df_full →
  (∃ monthly_avg_df merged dates usd filled avgs,
     df_full = daily_frame dates usd filled ∧
     make_monthly_avg_df df_full = Ok monthly_avg_df ∧
     merge_daily_monthly df_full monthly_avg_df = Ok merged ∧
     nrows merged = nrows df_full ∧
     getitem merged "InformationDate" = Ok (DateCol dates) ∧
     getitem merged "USDtoZAR" = Ok (FloatCol usd) ∧
     getitem merged "USDtoZAR_Fill_daily" = Ok (FloatCol filled) ∧
     getitem merged "USDtoZAR_Fill_monthly" = Ok (FloatCol avgs) ∧
     length avgs = length dates ∧
     ∀ i d, dates !! i = Some (Some d) →
       avgs !! i = Some (month_mean (to_period_M d) dates filled)) ∧
  (∀ dates usd filled months avgs i d,
     dates !! i = Some d →
     month_label d ∉ ((λ M, Some (period_str M)) <$> months) →
     merge_daily_monthly (daily_frame dates usd filled) (monthly_frame months avgs)
     = Ok (merged_frame dates usd filled (month_label <$> dates) months avgs
             (month_join dates months)) ∧
     (∀ n, (n < length dates)%nat → ∃ r o, month_join dates months !! r = Some (n, o)) ∧
     ∃ r, month_join dates months !! r = Some (i, None) ∧
          (∀ r' p, month_join dates months !! r' = Some p → p.1 = i → r' = r) ∧
          take_opt avgs (right_indexer (month_join dates months)) !! r = Some None).
Proof.
  intros Hdf Hfull. split.
  - apply make_df_inv in Hdf as (ds & _ & ->).
    apply make_df_full_inv in Hfull as (dates & usd & -> & Hlen).
    pose proof (length_USDtoZAR_Fill usd) as Hlenf. rewrite Hlen in Hlenf.
    destruct (merge_own_averages dates usd (USDtoZAR_Fill usd) Hlen Hlenf)
      as (Hd & Hu & Hf & Havgs & Hrow).
    eexists _, _, dates, usd, (USDtoZAR_Fill usd), _.
    split; [done|]. split; [apply make_monthly_avg_df_eq|].
    split; [apply merge_daily_monthly_eq|].
    split; [|split; [|split; [|split; [|split]]]].
    + rewrite nrows_merged_frame, nrows_daily_frame.
      rewrite <-(length_fmap (λ p : nat * option nat, Some p.1)).
      fold (left_indexer (month_join dates
              (group_keys (option_map to_period_M <$> dates)))).
      rewrite <-(length_take_opt dates), Hd. done.
    + unfold merged_frame. cbn [getitem]. rewrite Hd. done.
    + unfold merged_frame. cbn [getitem]. rewrite Hu. done.
    + unfold merged_frame. cbn [getitem]. rewrite Hf. done.
    + reflexivity.
    + split; [exact Havgs|]. intros i d Hi.
      rewrite (Hrow i d Hi), mean_skipna_month. done.
  - clear. intros dates usd filled months avgs i d Hi Hd.
    split; [apply merge_daily_monthly_eq|]. unfold month_join.
    set (lk := cells (StrCol (month_label <$> dates))).
    set (rk := cells (StrCol ((λ M, Some (period_str M)) <$> months))).
    assert (length lk = length dates) as Hlk.
    { unfold lk. simpl. by rewrite !length_fmap. }
    split.
    { intros n Hn. apply left_join_keeps. by rewrite Hlk. }
    destruct (left_join_unmatched lk rk i (option_map CStr (month_label d)))
      as (r & Hr & Huniq).
    { unfold lk. simpl. by rewrite !list_lookup_fmap, Hi. }
    { unfold rk. simpl. intros (y & Hy & Hin)%list_elem_of_fmap.
      apply Hd. destruct y as [y|]; [|done]. simpl in Hy. by simplify_eq. }
    exists r. split; [done|]. split; [done|].
    rewrite take_opt_lookup. unfold right_indexer. rewrite list_lookup_fmap, Hr. done.
Qed.

(** C9. The frame that the script computes, when it computes one, has
    exactly the four columns date, raw rate, filled rate and monthly
    average, each once; and it computes one whenever the feed gives at
    least one rate and all its dates are read. *)
Theorem combined_df_columns today data :
  (∀ combined_df, process to_datetime today data = Ok combined_df →
     columns combined_df
     = ["InformationDate"; "USDtoZAR"; "USDtoZAR_Fill"; "USDtoZAR_MonthlyAver"] ∧
     NoDup (columns combined_df)) ∧
  (data ≠ [] → Forall (λ e, ∃ d, to_datetime e.1 = Ok d) data →
   ∃ combined_df, process to_datetime today data = Ok combined_df).
Proof.
  split; [|apply process_returns].
  intros combined_df (dates & usd & avgs & -> & _)%process_inv.
  split; [done|]. apply (bool_decide_unpack _). vm_compute. exact I.
Qed.

(** C6, on the code: when the status is not 200, the script prints the
    message, then goes on to the plotting lines, creates a figure and
    ends with a [NameError] on [combined_df]. No file is written and
    [plt.show] is not reached. *)
Theorem main_fetch_failure status_code feed today :
  status_code ≠ 200 →
  main to_datetime status_code feed today
  = ([PrintMsg "Failed to fetch historical exchange rate data from ECB."; PltFigure],
     Err (NameError "combined_df")).
Proof. intros Hs. unfold main. rewrite decide_False by done. reflexivity. Qed.

End frames.

Lemma merge_keeps_daily_rows_witness :
  ∃ df df_full merged,
    make_df to_datetime_example data_example = Ok df ∧
    make_df_full 18264 df = Ok df_full ∧
    (monthly_avg_df ← make_monthly_avg_df df_full; merge_daily_monthly df_full monthly_avg_df)
    = Ok merged ∧
    nrows merged = nrows df_full.
Proof.
  destruct (make_df to_datetime_example data_example) as [df|] eqn:Hdf;
    [|exfalso; revert Hdf; vm_compute; discriminate].
  destruct (make_df_full 18264 df) as [df_full|] eqn:Hfull;
    [|exfalso; revert Hfull; injection Hdf as <-; vm_compute; discriminate].
  destruct (merge_keeps_daily_rows to_datetime_example 18264 data_example df df_full Hdf Hfull)
    as [(monthly & merged & dates & usd & filled & avgs & _ & Hm & Hmerge & Hrows & _) _].
  exists df, df_full, merged. rewrite Hm. repeat split; assumption.
Defined.

Lemma combined_df_columns_witness :
  ∃ combined_df, process to_datetime_example 18264 data_example = Ok combined_df.
Proof.
  apply (proj2 (combined_df_columns to_datetime_example 18264 data_example)).
  - discriminate.
  - repeat constructor; eexists; vm_compute; reflexivity.
Defined.

Lemma main_fetch_failure_witness :
  main to_datetime_example 404 feed_example 18264
  = ([PrintMsg "Failed to fetch historical exchange rate data from ECB."; PltFigure],
     Err (NameError "combined_df")).
Proof. apply main_fetch_failure. lia. Defined.

(** The script on [feed_example], run on 2020-01-03 (day 18264): the four
    days from the first rate on, the second and the last without a rate. *)
Example process_example :
  (data ← extract feed_example; process to_datetime_example 18264 data)
  = Ok (combined_frame [Some 18261; Some 18262; Some 18263; Some 18264]
          [Some (q 195 11); None; Some (q 490 27); None]
          [Some (q 195 11); Some (q 10655 594); Some (q 490 27); Some (q 490 27)]
          [Some (q 195 11); Some (q 32215 1782); Some (q 32215 1782); Some (q 32215 1782)]).
Proof. by_compute. Qed.

(** * Further properties of the script *)

(** ** The rates of one date (line 24) *)

Section rates.

Implicit Types (es : list (string * float)) (c : string).

Lemma rates_of_snoc es e : rates_of (es ++ [e]) = <[e.1 := e.2]> (rates_of es).
Proof. unfold rates_of. by rewrite foldl_app. Qed.

(** X1. The dict of a date holds, for each currency, the rate of its last
    entry in the document, and nothing for a currency without entry. *)
Theorem rates_of_lookup es c :
  rates_of es !! c = snd <$> last (filter (λ e, e.1 = c) es) ∧
  (rates_of es !! c = None ↔ c ∉ es.*1).
Proof.
  assert (rates_of es !! c = snd <$> last (filter (λ e, e.1 = c) es)) as Hlast.
  { induction es as [|e es IH] using rev_ind; [done|].
    rewrite rates_of_snoc, filter_app, filter_cons, filter_nil.
    destruct (decide (e.1 = c)) as [<-|Hne].
    - by rewrite lookup_insert_eq, last_snoc.
    - rewrite lookup_insert_ne by done. by rewrite app_nil_r. }
  split; [done|]. rewrite Hlast, fmap_None, last_None. split.
  - intros Hnil [e [-> He]]%list_elem_of_fmap.
    assert (e ∈ filter (λ e', e'.1 = e.1) es) as Hin by by apply list_elem_of_filter.
    rewrite Hnil in Hin. by apply elem_of_nil in Hin.
  - intros Hc. destruct (filter _ es) as [|e l] eqn:Hf; [done|].
    assert (e ∈ filter (λ e', e'.1 = c) es) as [He Hin]%list_elem_of_filter
      by (rewrite Hf; apply elem_of_cons; by left).
    destruct Hc. apply list_elem_of_fmap. by exists e.
Qed.

Lemma rates_of_lookup_witness :
  rates_of [("USD", q 11 10); ("ZAR", q 19 1); ("USD", q 12 10)] !! "USD" = Some (q 12 10) ∧
  rates_of [("USD", q 11 10); ("ZAR", q 19 1); ("USD", q 12 10)] !! "JPY" = None.
Proof.
  split.
  - rewrite (proj1 (rates_of_lookup _ "USD")). vm_compute. reflexivity.
  - apply (proj2 (rates_of_lookup _ "JPY")). vm_compute. intros H.
    repeat (apply elem_of_cons in H as [H|H]; [discriminate|]). by apply elem_of_nil in H.
Defined.

End rates.

(** ** The filled column at its borders (lines 50 and 55) *)

Section borders.

Implicit Types (s : Series) (j p : nat).

(** X2. The fill never changes a rate that was observed. *)
Theorem fill_keeps_observed s j v :
  s !! j = Some (Some v) → USDtoZAR_Fill s !! j = Some (Some v).
Proof.
  intros Hj. unfold USDtoZAR_Fill. rewrite rolling_fill_id.
  by apply interpolate_lookup_Some.
Qed.

Lemma fill_keeps_observed_witness :
  USDtoZAR_Fill gap_at_both_ends !! 2%nat = Some (Some (q 10 1)).
Proof. apply fill_keeps_observed. vm_compute. reflexivity. Defined.

(** X3. The dates before the first observed rate stay missing: nothing is
    filled backwards. *)
Theorem fill_before_first_observed s p j v :
  s !! p = Some (Some v) → (∀ m, (m < p)%nat → s !! m = Some None) → (j < p)%nat →
  USDtoZAR_Fill s !! j = Some None.
Proof.
  intros Hp Hlead Hj. unfold USDtoZAR_Fill, interpolate. rewrite rolling_fill_id.
  rewrite (valid_from_gap 0 s p v Hp Hlead). rewrite list_lookup_imap, (Hlead j Hj).
  simpl. by rewrite decide_True by lia.
Qed.

Lemma fill_before_first_observed_witness :
  USDtoZAR_Fill gap_at_both_ends !! 1%nat = Some None.
Proof.
  apply (fill_before_first_observed gap_at_both_ends 2 1 (q 10 1)).
  - vm_compute. reflexivity.
  - intros m Hm. destruct m as [|[|m]]; try lia; vm_compute; reflexivity.
  - lia.
Defined.

(** X4. A column without any observed rate comes back as it is, all
    missing. *)
Theorem fill_nothing_observed s :
  Forall (λ x, x = None) s → USDtoZAR_Fill s = s.
Proof.
  intros Hs. unfold USDtoZAR_Fill, interpolate. rewrite rolling_fill_id.
  by rewrite (valid_from_all_NaN 0 s Hs).
Qed.

Lemma fill_nothing_observed_witness : USDtoZAR_Fill [None; None; None] = [None; None; None].
Proof. apply fill_nothing_observed. repeat constructor. Defined.

End borders.

(** ** Interpolated values stay between their neighbours (line 55) *)

Section between.

Implicit Types (s : Series) (i j k : nat) (a b : float).

Local Open Scope Qc_scope.

Lemma of_nat_sub_pos i k : (i < k)%nat → 0 < of_nat k - of_nat i.
Proof.
  intros Hik. unfold of_nat. rewrite <-Z2Qc_inj_sub, <-Z2Qc_inj_0.
  apply (proj1 (Z2Qc_inj_lt 0 (Z.of_nat k - Z.of_nat i))). lia.
Qed.

Lemma Qcdiv_nonneg (x y : Qc) : 0 ≤ x → 0 < y → 0 ≤ x / y.
Proof.
  intros Hx Hy. unfold Qcdiv. apply Qcmult_nonneg_nonneg; [done|].
  by apply Qclt_le_weak, Qcinv_pos.
Qed.

(** A point of the segment from [a] to [b] at a fraction between 0 and 1
    lies between [a] and [b]. *)
Lemma segment_between (a b x y : Qc) :
  a ≤ b → 0 ≤ x → 0 ≤ y - x → 0 < y →
  a ≤ a + (b - a) * x / y ∧ a + (b - a) * x / y ≤ b.
Proof.
  intros Hab Hx Hyx Hy. assert (y ≠ 0) as Hy0 by (intros ->; by apply Qclt_not_eq in Hy).
  apply Qcle_minus_iff in Hab. split; apply Qcle_minus_iff.
  - replace (a + (b - a) * x / y + - a) with ((b + - a) * (x / y)) by (field; done).
    apply Qcmult_nonneg_nonneg; [done|by apply Qcdiv_nonneg].
  - replace (b + - (a + (b - a) * x / y)) with ((b + - a) * ((y - x) / y)) by (field; done).
    apply Qcmult_nonneg_nonneg; [done|by apply Qcdiv_nonneg].
Qed.

(** X5. A date filled between two observed rates [a] and [b], with only
    missing values between them, gets a value between [a] and [b]: the
    fill makes no new high or low. *)
Theorem fill_between_bounds s i j k a b :
  (i < j < k)%nat → s !! i = Some (Some a) → s !! k = Some (Some b) →
  (∀ m, (i < m < k)%nat → s !! m = Some None) →
  ∃ v, USDtoZAR_Fill s !! j = Some (Some v) ∧
       (a ≤ b → a ≤ v ∧ v ≤ b) ∧ (b ≤ a → b ≤ v ∧ v ≤ a).
Proof.
  intros Hijk Hi Hk Hgap. eexists. split.
  { unfold USDtoZAR_Fill. rewrite rolling_fill_id. by apply interpolate_between. }
  pose proof (of_nat_sub_pos i k ltac:(lia)) as HK.
  pose proof (of_nat_sub_pos i j ltac:(lia)) as HJ.
  pose proof (of_nat_sub_pos j k ltac:(lia)) as HKJ.
  assert (0 ≤ of_nat k - of_nat i - (of_nat j - of_nat i)) as Hd.
  { replace (of_nat k - of_nat i - (of_nat j - of_nat i)) with (of_nat k - of_nat j) by ring.
    by apply Qclt_le_weak. }
  split; intros Hab.
  - apply segment_between; [done|by apply Qclt_le_weak|done|done].
  - assert (of_nat k - of_nat i ≠ 0) as HK0 by (intros H0; rewrite H0 in HK; by apply Qclt_not_eq in HK).
    replace (a + (b - a) * (of_nat j - of_nat i) / (of_nat k - of_nat i))
      with (b + (a - b) * (of_nat k - of_nat i - (of_nat j - of_nat i)) / (of_nat k - of_nat i))
      by (field; done).
    apply segment_between; [done|done| |done].
    replace (of_nat k - of_nat i - (of_nat k - of_nat i - (of_nat j - of_nat i)))
      with (of_nat j - of_nat i) by ring.
    by apply Qclt_le_weak.
Qed.

Lemma fill_between_bounds_witness :
  ∃ v, USDtoZAR_Fill five_days !! 2%nat = Some (Some v) ∧
       (q 10 1 ≤ q 15 1 → q 10 1 ≤ v ∧ v ≤ q 15 1).
Proof.
  destruct (fill_between_bounds five_days 0 2 4 (q 10 1) (q 15 1)) as (v & Hv & Hle & _).
  - lia.
  - vm_compute. reflexivity.
  - vm_compute. reflexivity.
  - intros m Hm. destruct m as [|[|[|[|m]]]]; try lia; vm_compute; reflexivity.
  - by exists v.
Defined.

End between.

(** ** Runs of the script (lines 13-107) *)

Section runs.

Variable to_datetime : string → result Z.

Implicit Types (feed : list Cube) (today status_code : Z) (data : list (string * float)).

Lemma main_200 feed today :
  main to_datetime 200 feed today =
    combined_df ←
      (data ← lift (extract feed);
       combined_df ← lift (process to_datetime today data);
       emit (ToCsv "USDtoZAR_ExchangeRates.csv" combined_df);;
       emit (PrintMsg "Combined daily and monthly average exchange rates with extrapolated values saved to USDtoZAR_ExchangeRates.csv");;
       emit (PrintFrame combined_df);;
       mret (Some combined_df));
    chart combined_df "USDtoZAR" "USD to ZAR Exchange Rate (Daily)" "tab:blue"
      "Date" "USD to ZAR" "USD to ZAR Exchange Rate (Daily)";;
    chart combined_df "USDtoZAR_MonthlyAver" "Monthly Average USD to ZAR" "tab:orange"
      "Year-Month" "USD to ZAR (Monthly Average)" "USD to ZAR Exchange Rate (Monthly Average)";;
    emit PltShow.
Proof. reflexivity. Qed.

Lemma main_raises feed today e :
  extract feed = Err e ∨
  (∃ data, extract feed = Ok data ∧ process to_datetime today data = Err e) →
  main to_datetime 200 feed today = ([], Err e).
Proof.
  intros [He|(data & He & Hp)]; rewrite main_200, He; [done|].
  unfold lift. cbn [mbind io_bind]. by rewrite Hp.
Qed.

Lemma main_returns feed today data dates usd filled avgs :
  extract feed = Ok data →
  process to_datetime today data = Ok (combined_frame dates usd filled avgs) →
  main to_datetime 200 feed today =
    (success_events (combined_frame dates usd filled avgs)
       (DateCol dates) (FloatCol usd) (FloatCol avgs), Ok tt).
Proof.
  intros He Hp. rewrite main_200, He. unfold lift. cbn [mbind io_bind]. by rewrite Hp.
Qed.

(** X6. With status 200, an exception of the extraction or of the
    processing ends the run before anything is printed, written or
    plotted. *)
Theorem main_exception_no_output feed today e :
  extract feed = Err e ∨
  (∃ data, extract feed = Ok data ∧ process to_datetime today data = Err e) →
  main to_datetime 200 feed today = ([], Err e).
Proof. apply main_raises. Qed.

(** X7. With status 200, when the frame [combined_df] is computed, the run
    is: the CSV file written once with that frame, the message and the
    frame printed, the chart of the raw column [USDtoZAR] against the
    dates, the chart of [USDtoZAR_MonthlyAver] against the dates, then
    [plt.show], and it ends normally. *)
Theorem main_success feed today data combined_df :
  extract feed = Ok data → process to_datetime today data = Ok combined_df →
  ∃ dates usd avgs,
    getitem combined_df "InformationDate" = Ok dates ∧
    getitem combined_df "USDtoZAR" = Ok usd ∧
    getitem combined_df "USDtoZAR_MonthlyAver" = Ok avgs ∧
    main to_datetime 200 feed today = (success_events combined_df dates usd avgs, Ok tt).
Proof.
  intros He Hp.
  destruct (process_inv _ _ _ _ Hp) as (dates & usd & avgs & -> & _).
  eexists _, _, _. split; [reflexivity|]. split; [reflexivity|]. split; [reflexivity|].
  by apply (main_returns feed today data).
Qed.

(** X8. A feed in which no date has both the USD and the ZAR rate (an
    empty feed too) gives no rate: with status 200 the run ends with the
    [ValueError] of [pd.date_range] on a missing start, before any
    output. *)
Theorem main_no_rates feed today :
  Forall (λ c, rates_of (entries c) !! "USD" = None ∨
               rates_of (entries c) !! "ZAR" = None) feed →
  extract feed = Ok [] ∧
  process to_datetime today [] = Err ValueError ∧
  main to_datetime 200 feed today = ([], Err ValueError).
Proof.
  intros Hfeed.
  assert (extract feed = Ok []) as He.
  { induction Hfeed as [|c cs Hc _ IH]; [done|].
    cbn [extract]. apply usd_to_zar_skip in Hc. by rewrite Hc, bind_Ok, IH. }
  split; [done|]. split; [done|].
  apply main_raises. right. by exists [].
Qed.

(** X9. Whatever the status and the feed, a CSV file is written, and
    [plt.show] is reached, only if the status is 200 and the frame
    [combined_df] was computed; the file then has the fixed name and holds
    that frame. *)
Theorem output_only_on_success status_code feed today :
  (∀ path df, ToCsv path df ∈ (main to_datetime status_code feed today).1 →
     status_code = 200 ∧ path = "USDtoZAR_ExchangeRates.csv" ∧
     ∃ data, extract feed = Ok data ∧ process to_datetime today data = Ok df) ∧
  (PltShow ∈ (main to_datetime status_code feed today).1 →
     status_code = 200 ∧
     ∃ data df, extract feed = Ok data ∧ process to_datetime today data = Ok df).
Proof.
  assert (∀ ev, ev ∈ (main to_datetime status_code feed today).1 →
            (∀ path df, ev ≠ ToCsv path df) ∧ ev ≠ PltShow ∨
            status_code = 200 ∧
            ∃ data df, extract feed = Ok data ∧ process to_datetime today data = Ok df ∧
                       (∀ path df', ev = ToCsv path df' →
                          path = "USDtoZAR_ExchangeRates.csv" ∧ df' = df)) as Hev.
  { intros ev Hin. destruct (decide (status_code = 200)) as [->|Hs].
    - destruct (extract feed) as [data|e] eqn:He.
      + destruct (process to_datetime today data) as [df|e] eqn:Hp.
        * right. split; [done|]. exists data, df. split; [done|]. split; [done|].
          destruct (process_inv _ _ _ _ Hp) as (dates & usd & avgs & -> & _).
          rewrite (main_returns feed today data _ _ _ _ He Hp) in Hin.
          intros path df' ->. simpl in Hin.
          apply elem_of_cons in Hin as [[= -> ->]|Hin]; [done|].
          exfalso. repeat (apply elem_of_cons in Hin as [Hin|Hin]; [discriminate|]).
          by apply elem_of_nil in Hin.
        * rewrite (main_raises feed today e) in Hin by (right; eauto).
          by apply elem_of_nil in Hin.
      + rewrite (main_raises feed today e) in Hin by by left.
        by apply elem_of_nil in Hin.
    - left. unfold main in Hin. rewrite decide_False in Hin by done. simpl in Hin.
      repeat (apply elem_of_cons in Hin as [->|Hin]; [done|]).
      by apply elem_of_nil in Hin. }
  split.
  - intros path df [[Hne _]|(-> & data & df' & He & Hp & Hcsv)]%Hev; [by destruct (Hne path df)|].
    destruct (Hcsv path df eq_refl) as [-> ->]. eauto.
  - intros [[_ Hne]|(-> & data & df & He & Hp & _)]%Hev; [done|]. eauto.
Qed.

(** X10. A date string that [pd.to_datetime] does not read ends the
    processing with its exception (the first such date in the order of
    [data]); no frame is computed. *)
Theorem process_unread_date today pre s r post e :
  Forall (λ x, ∃ d, to_datetime x.1 = Ok d) pre → to_datetime s = Err e →
  process to_datetime today (pre ++ (s, r) :: post) = Err e.
Proof.
  intros Hpre Hs.
  assert (to_datetime_all to_datetime (Some <$> (pre ++ (s, r) :: post).*1) = Err e) as Hall.
  { induction Hpre as [|x pre [d Hd] _ IH].
    - simpl. by rewrite Hs.
    - rewrite <-app_comm_cons, !fmap_cons. cbn [to_datetime_all].
      by rewrite Hd, bind_Ok, IH. }
  unfold process, make_df. simpl. simpl in Hall. by rewrite Hall.
Qed.

End runs.

Lemma main_exception_no_output_witness :
  main to_datetime_example 200
    [ {| time := "2020-01-01"; entries := [("USD", q 0 1); ("ZAR", q 18 1)] |} ] 18264
  = ([], Err ZeroDivisionError).
Proof.
  refine (main_exception_no_output _ _ _ _ (or_introl _)). vm_compute. reflexivity.
Defined.

Lemma main_success_witness :
  ∃ combined_df dates usd avgs,
    main to_datetime_example 200 feed_example 18264
    = (success_events combined_df dates usd avgs, Ok tt).
Proof.
  destruct (extract feed_example) as [data|] eqn:He;
    [|exfalso; revert He; vm_compute; discriminate].
  destruct (process to_datetime_example 18264 data) as [df|] eqn:Hp;
    [|exfalso; revert Hp; injection (eq_trans (eq_sym He) (extract_omap feed_example
        ltac:(apply (bool_decide_unpack _); vm_compute; exact I))) as ->;
      vm_compute; discriminate].
  destruct (main_success to_datetime_example feed_example 18264 data df He Hp)
    as (dates & usd & avgs & _ & _ & _ & Hmain).
  by exists df, dates, usd, avgs.
Defined.

Lemma main_no_rates_witness :
  main to_datetime_example 200
    [ {| time := "2020-01-01"; entries := [("JPY", q 120 1); ("USD", q 11 10)] |} ] 18264
  = ([], Err ValueError).
Proof.
  apply main_no_rates. constructor; [|constructor]. right. vm_compute. reflexivity.
Defined.

Lemma output_only_on_success_witness :
  ∃ data df, extract feed_example = Ok data ∧ process to_datetime_example 18264 data = Ok df.
Proof.
  apply (proj2 (output_only_on_success to_datetime_example 200 feed_example 18264)).
  apply (bool_decide_unpack _). vm_compute. exact I.
Defined.

Lemma process_unread_date_witness :
  process to_datetime_example 18264
    [("2019-12-31", q 17 1); ("31/12/2019", q 18 1); ("2020-01-02", q 19 1)]
  = Err ValueError.
Proof.
  apply (process_unread_date to_datetime_example 18264 [("2019-12-31", q 17 1)]
           "31/12/2019" (q 18 1) [("2020-01-02", q 19 1)]).
  - repeat constructor. exists 18261. vm_compute. reflexivity.
  - vm_compute. reflexivity.
Defined.

(** ** The frame of the rates, sorted by date (lines 34-36) *)

Section sorting.

Variable to_datetime : string → result Z.

Implicit Types (data : list (string * float)) (ds : list Z) (vs : list float)
  (P : list (option Z * nat)).

Global Instance date_le_total : Total date_le.
Proof. intros [[x|] i] [[y|] j]; unfold date_le; simpl; lia. Qed.

(** The parsed dates of [data], as [pd.to_datetime] gives them on the
    column. *)
Lemma to_datetime_all_Forall2 data ds :
  Forall2 (λ e d, to_datetime e.1 = Ok d) data ds →
  to_datetime_all to_datetime (Some <$> data.*1) = Ok (Some <$> ds).
Proof.
  induction 1 as [|e d data ds Hd _ IH]; [done|].
  change (to_datetime_all to_datetime (Some e.1 :: (Some <$> data.*1))
          = Ok (Some d :: (Some <$> ds))).
  cbn [to_datetime_all]. by rewrite Hd, bind_Ok, IH, bind_Ok.
Qed.

Lemma omap_row_of_imap vs0 ds vs :
  length vs = length ds →
  omap (row_of (vs0 ++ vs)) (imap (λ i d, (d, (length vs0 + i)%nat)) (Some <$> ds))
  = zip ds vs.
Proof.
  revert vs0 vs. induction ds as [|d ds IH]; intros vs0 [|v vs] Hlen; try done.
  rewrite fmap_cons, imap_cons. csimpl. unfold row_of at 1. simpl.
  rewrite Nat.add_0_r, list_lookup_middle by done. simpl. f_equal.
  specialize (IH (vs0 ++ [v]) vs ltac:(simpl in Hlen; lia)).
  rewrite <-app_assoc in IH. simpl in IH. rewrite <-IH.
  f_equal. apply imap_ext. intros i x _. simpl. rewrite length_app. simpl.
  f_equal. lia.
Qed.

Lemma omap_cons_Some {A B} (f : A → option B) x l y :
  f x = Some y → omap f (x :: l) = y :: omap f l.
Proof. intros H. csimpl. by rewrite H. Qed.

Lemma take_opt_cons_snd {A} (l : list (option A)) (p : option Z * nat) P :
  take_opt l (Some <$> (p :: P).*2) = mjoin (l !! p.2) :: take_opt l (Some <$> P.*2).
Proof. done. Qed.

Lemma sorted_pairs_rows ds vs P :
  Forall (λ p, ∃ d v, p.1 = Some d ∧ ds !! p.2 = Some d ∧ vs !! p.2 = Some v) P →
  take_opt (Some <$> ds) (Some <$> P.*2) = Some <$> (omap (row_of vs) P).*1 ∧
  take_opt (Some <$> vs) (Some <$> P.*2) = Some <$> (omap (row_of vs) P).*2 ∧
  (omap (row_of vs) P).*1 = omap fst P.
Proof.
  induction 1 as [|[o i] P (d & v & Ho & Hd & Hv) _ (IH1 & IH2 & IH3)]; [done|].
  simpl in Ho, Hd, Hv. subst o.
  assert (row_of vs (Some d, i) = Some (d, v)) as Hrow.
  { unfold row_of. simpl. by rewrite Hv. }
  rewrite (omap_cons_Some _ _ _ _ Hrow), !take_opt_cons_snd, IH1, IH2.
  rewrite (omap_cons_Some fst (Some d, i) P d eq_refl), !fmap_cons, IH3. simpl.
  by rewrite !list_lookup_fmap, Hd, Hv.
Qed.

Lemma sorted_dates P :
  Forall (λ p, is_Some p.1) P → Sorted date_le P → Sorted Z.le (omap fst P).
Proof.
  intros HP HS. induction HS as [|[o i] P _ IH Hhd]; [constructor|].
  apply Forall_cons in HP as [[d Hd] HP]. simpl in Hd. subst o. csimpl.
  constructor; [by apply IH|].
  destruct Hhd as [|[o' j] P' Hle]; [constructor|].
  apply Forall_cons in HP as [[d' Hd'] _]. simpl in Hd'. subst o'. csimpl.
  constructor. unfold date_le in Hle. simpl in Hle. lia.
Qed.

Lemma make_df_rows data ds :
  Forall2 (λ e d, to_datetime e.1 = Ok d) data ds →
  ∃ rows, rows ≡ₚ zip ds data.*2 ∧ Sorted Z.le rows.*1 ∧
          make_df to_datetime data
          = Ok (rates_frame (Some <$> rows.*1) (Some <$> rows.*2)).
Proof.
  intros Hparse. pose proof (Forall2_length _ _ _ Hparse) as Hlen.
  set (vs := data.*2). assert (length vs = length ds) as Hvs.
  { unfold vs. by rewrite length_fmap. }
  set (L := imap (λ i d, (d, i)) (Some <$> ds)).
  set (P := merge_sort date_le L).
  assert (P ≡ₚ L) as HPL by apply merge_sort_Permutation.
  assert (Forall (λ p, ∃ d v, p.1 = Some d ∧ ds !! p.2 = Some d ∧ vs !! p.2 = Some v) P) as HQ.
  { rewrite HPL. apply Forall_lookup. intros i [o j] Hi.
    unfold L in Hi. rewrite list_lookup_imap, list_lookup_fmap in Hi.
    destruct (ds !! i) as [d|] eqn:Hd; [|done]. simpl in Hi. injection Hi as <- <-. simpl.
    destruct (lookup_lt_is_Some_2 vs i) as [v Hv].
    { rewrite Hvs. by eapply lookup_lt_Some. }
    by exists d, v. }
  destruct (sorted_pairs_rows ds vs P HQ) as (H1 & H2 & H3).
  exists (omap (row_of vs) P). split; [|split].
  - rewrite HPL. rewrite <-(omap_row_of_imap [] ds vs Hvs). reflexivity.
  - rewrite H3. apply sorted_dates; [|unfold P; apply (Sorted_merge_sort date_le)].
    eapply Forall_impl; [apply HQ|]. intros p (d & v & -> & _). eauto.
  - rewrite (make_df_eq to_datetime data _ (to_datetime_all_Forall2 _ _ Hparse)).
    fold vs. unfold argsort. fold L. fold P. by rewrite H1, H2.
Qed.

(** X11. When every date of [data] is read, line 36 leaves in [df] the
    same rows, each date with its own rate, in increasing order of date. *)
Theorem make_df_sorted data ds :
  Forall2 (λ e d, to_datetime e.1 = Ok d) data ds →
  ∃ rows, rows ≡ₚ zip ds data.*2 ∧ Sorted Z.le rows.*1 ∧
          make_df to_datetime data
          = Ok (rates_frame (Some <$> rows.*1) (Some <$> rows.*2)).
Proof. apply make_df_rows. Qed.

End sorting.

Lemma make_df_sorted_witness :
  ∃ rows, Sorted Z.le rows.*1 ∧
          make_df to_datetime_example data_example
          = Ok (rates_frame (Some <$> rows.*1) (Some <$> rows.*2)).
Proof.
  destruct (make_df_sorted to_datetime_example data_example [18263; 18261])
    as (rows & _ & Hs & Hdf).
  - repeat constructor.
  - by exists rows.
Defined.

(** ** The daily frame of a run (lines 40-58) *)

Section daily.

Variable to_datetime : string → result Z.

Implicit Types (data : list (string * float)) (ds X : list Z) (rows : list (Z * float))
  (today start : Z).

Lemma min_date_fmap_Some X :
  X ≠ [] → ∃ m, min_date (Some <$> X) = Some m ∧ m ∈ X ∧ ∀ x, x ∈ X → m ≤ x.
Proof.
  induction X as [|x X IH]; [done|]. intros _.
  change (min_date (Some <$> x :: X))
    with (match min_date (Some <$> X) with Some m => Some (Z.min x m) | None => Some x end).
  destruct X as [|y X].
  - exists x. split; [done|]. split; [apply elem_of_cons; by left|].
    intros z [->|Hz%elem_of_nil]%elem_of_cons; [lia|done].
  - destruct IH as (m & -> & Hm & Hmin); [done|].
    exists (Z.min x m). split; [done|]. split.
    + destruct (Z.min_spec x m) as [[_ ->]|[_ ->]]; apply elem_of_cons; auto.
    + intros z [->|Hz]%elem_of_cons; [lia|]. specialize (Hmin z Hz). lia.
Qed.

Lemma date_keys_eq X :
  cells (DateCol (Some <$> X)) = (λ d, Some (CDate d)) <$> X.
Proof. simpl. by rewrite <-list_fmap_compose. Qed.

Lemma NoDup_date_keys X : NoDup X → NoDup (cells (DateCol (Some <$> X))).
Proof.
  intros Hnd. rewrite date_keys_eq. apply NoDup_fmap_2; [|done].
  by intros x y [= Hxy].
Qed.

(** Lines 40-46 on rows of distinct dates: the date axis is the range of
    days and the raw column holds the rate of each day that has one. *)
Lemma make_df_full_rows today rows start :
  NoDup rows.*1 → min_date (Some <$> rows.*1) = Some start →
  ∃ usd,
    make_df_full today (rates_frame (Some <$> rows.*1) (Some <$> rows.*2))
    = Ok (daily_frame (Some <$> date_range start today) usd (USDtoZAR_Fill usd)) ∧
    length usd = length (date_range start today) ∧
    (∀ k d v, date_range start today !! k = Some d → (d, v) ∈ rows →
       usd !! k = Some (Some v)) ∧
    (∀ k d, date_range start today !! k = Some d → d ∉ rows.*1 → usd !! k = Some None).
Proof.
  intros Hnd Hmin. pose proof (NoDup_date_keys _ Hnd) as Hrk.
  rewrite (make_df_full_eq today _ _ start Hmin).
  set (A := date_range start today).
  set (lk := cells (DateCol (Some <$> A))).
  set (rk := cells (DateCol (Some <$> rows.*1))) in *.
  assert (length lk = length A) as Hlk.
  { unfold lk. simpl. by rewrite !length_fmap. }
  rewrite (left_indexer_NoDup lk rk Hrk), (right_indexer_NoDup lk rk Hrk), Hlk.
  rewrite <-(length_fmap Some A), take_opt_seq.
  eexists. split; [reflexivity|]. split; [|split].
  - rewrite length_take_opt, !length_fmap. exact Hlk.
  - intros k d v Hk [r Hr]%list_elem_of_lookup.
    rewrite take_opt_lookup, list_lookup_fmap.
    assert (lk !! k = Some (Some (CDate d))) as ->.
    { unfold lk. rewrite date_keys_eq, list_lookup_fmap, Hk. done. }
    simpl. rewrite (list_find_eq_NoDup rk r _ Hrk).
    + simpl. rewrite !list_lookup_fmap, Hr. done.
    + unfold rk. rewrite date_keys_eq, !list_lookup_fmap, Hr. done.
  - intros k d Hk Hd.
    rewrite take_opt_lookup, list_lookup_fmap.
    assert (lk !! k = Some (Some (CDate d))) as ->.
    { unfold lk. rewrite date_keys_eq, list_lookup_fmap, Hk. done. }
    simpl. rewrite (proj2 (list_find_None _ rk)); [done|].
    unfold rk. rewrite date_keys_eq. apply Forall_fmap, Forall_forall.
    intros x Hx [= ->]. done.
Qed.

(** The sorted rows of distinct read dates, with the first date. *)
Lemma sorted_rows_spec data ds :
  Forall2 (λ e d, to_datetime e.1 = Ok d) data ds → NoDup ds → data ≠ [] →
  ∃ rows start,
    make_df to_datetime data = Ok (rates_frame (Some <$> rows.*1) (Some <$> rows.*2)) ∧
    NoDup rows.*1 ∧ min_date (Some <$> rows.*1) = Some start ∧
    start ∈ ds ∧ (∀ d, d ∈ ds → start ≤ d) ∧
    (∀ d, d ∈ rows.*1 ↔ d ∈ ds) ∧
    (∀ d v, (d, v) ∈ rows ↔ ∃ i, ds !! i = Some d ∧ data.*2 !! i = Some v).
Proof.
  intros Hparse Hnd Hne. pose proof (Forall2_length _ _ _ Hparse) as Hlen.
  destruct (make_df_rows to_datetime data ds Hparse) as (rows & Hperm & _ & Hdf).
  assert (rows.*1 ≡ₚ ds) as Hperm1.
  { rewrite Hperm. rewrite fst_zip; [done|]. rewrite length_fmap. lia. }
  destruct (min_date_fmap_Some rows.*1) as (start & Hmin & Hin & Hle).
  { intros Hnil. rewrite Hnil in Hperm1. apply Permutation_nil_l in Hperm1.
    subst ds. by apply Forall2_nil_inv_r in Hparse. }
  exists rows, start. split; [done|]. split; [by rewrite Hperm1|]. split; [done|].
  split; [by rewrite <-Hperm1|]. split; [intros d Hd; apply Hle; by rewrite Hperm1|].
  split; [intros d; by rewrite Hperm1|].
  intros d v. rewrite Hperm, list_elem_of_lookup. split.
  - intros [i Hi]. exists i. by apply lookup_zip_with_Some in Hi as (x & y & [= -> ->] & ? & ?).
  - intros (i & Hd & Hv). exists i. apply lookup_zip_with_Some. eauto.
Qed.

(** X12. In a run whose dates are all read and distinct, the date axis of
    [df_full] is every day from the first date of the feed to the day of
    the run, each once and in order; the raw column holds the rate of
    each day of the feed and is missing on every other day. *)
Theorem df_full_axis today data ds :
  Forall2 (λ e d, to_datetime e.1 = Ok d) data ds → NoDup ds → data ≠ [] →
  ∃ start usd,
    start ∈ ds ∧ (∀ d, d ∈ ds → start ≤ d) ∧
    (df ← make_df to_datetime data; make_df_full today df)
    = Ok (daily_frame (Some <$> seqZ start (today - start + 1)) usd (USDtoZAR_Fill usd)) ∧
    length usd = Z.to_nat (today - start + 1) ∧
    (∀ k i v, (Z.of_nat k ≤ today - start) → ds !! i = Some (start + Z.of_nat k) →
       data.*2 !! i = Some v → usd !! k = Some (Some v)) ∧
    (∀ k, (Z.of_nat k ≤ today - start) → start + Z.of_nat k ∉ ds → usd !! k = Some None).
Proof.
  intros Hparse Hnd Hne.
  destruct (sorted_rows_spec data ds Hparse Hnd Hne)
    as (rows & start & Hdf & Hnd' & Hmin & Hin & Hle & Hdates & Hrows).
  destruct (make_df_full_rows today rows start Hnd' Hmin) as (usd & Hfull & Hlen & Hobs & Hmiss).
  exists start, usd. split; [done|]. split; [done|].
  split; [by rewrite Hdf, bind_Ok, Hfull|].
  split; [by rewrite Hlen; unfold date_range; rewrite length_seqZ|]. split.
  - intros k i v Hk Hd Hv. apply (Hobs k (start + Z.of_nat k) v).
    + unfold date_range. apply lookup_seqZ. lia.
    + apply Hrows. eauto.
  - intros k Hk Hd. apply (Hmiss k (start + Z.of_nat k)).
    + unfold date_range. apply lookup_seqZ. lia.
    + by rewrite Hdates.
Qed.

End daily.

Lemma df_full_axis_witness :
  ∃ start usd,
    (df ← make_df to_datetime_example data_example; make_df_full 18264 df)
    = Ok (daily_frame (Some <$> seqZ start (18264 - start + 1)) usd (USDtoZAR_Fill usd)).
Proof.
  destruct (df_full_axis to_datetime_example 18264 data_example [18263; 18261])
    as (start & usd & _ & _ & H & _).
  - repeat constructor.
  - apply (bool_decide_unpack _). vm_compute. exact I.
  - discriminate.
  - by exists start, usd.
Defined.

(** ** The frame of a run (lines 34-73) *)

Section outcome.

Variable to_datetime : string → result Z.

Implicit Types (data : list (string * float)) (ds : list Z) (today start : Z).



(** X14. When every date of the feed is after the day of the run, the
    date axis is empty and the script computes a frame with the four
    columns and no row; no exception is raised. *)
Theorem process_before_first_date today data ds :
  Forall2 (λ e d, to_datetime e.1 = Ok d) data ds → data ≠ [] →
  Forall (λ d, today < d) ds →
  process to_datetime today data = Ok (combined_frame [] [] [] []).
Proof.
  intros Hparse Hne Hlate. pose proof (Forall2_length _ _ _ Hparse) as Hlen.
  destruct (make_df_rows to_datetime data ds Hparse) as (rows & Hperm & _ & Hdf).
  assert (rows.*1 ≡ₚ ds) as Hperm1.
  { rewrite Hperm. rewrite fst_zip; [done|]. rewrite length_fmap. lia. }
  destruct (min_date_fmap_Some rows.*1) as (start & Hmin & Hin & _).
  { intros Hnil. rewrite Hnil in Hperm1. apply Permutation_nil_l in Hperm1.
    subst ds. by apply Forall2_nil_inv_r in Hparse. }
  rewrite Hperm1 in Hin. rewrite Forall_forall in Hlate. specialize (Hlate _ Hin).
  unfold process. rewrite Hdf, bind_Ok, (make_df_full_eq today _ _ start Hmin).
  unfold date_range. rewrite seqZ_nil by lia. reflexivity.
Qed.

End outcome.


Lemma process_before_first_date_witness :
  process to_datetime_example 18000 data_example = Ok (combined_frame [] [] [] []).
Proof.
  apply (process_before_first_date to_datetime_example 18000 data_example [18263; 18261]).
  - repeat constructor.
  - discriminate.
  - repeat constructor.
Defined.

(** ** Labels, groups and columns (lines 50-67) *)

Section labels.

Implicit Types (df : DataFrame) (l : string) (c : Column).

(** X15. Two days get the same [YearMonth] label exactly when they are in
    the same month of the same year: joining on the label (line 63) joins
    on the month. *)
Theorem month_label_same_month (d1 d2 : Z) :
  month_label (Some d1) = month_label (Some d2) ↔ to_period_M d1 = to_period_M d2.
Proof.
  unfold month_label. simpl. split; [|by intros ->].
  intros [= H]. by apply (inj period_str).
Qed.

Lemma Sorted_le_NoDup_lt (l : list Z) : Sorted Z.le l → NoDup l → Sorted Z.lt l.
Proof.
  induction 1 as [|x l _ IH Hhd]; [constructor|].
  intros [Hx Hnd]%NoDup_cons. constructor; [by apply IH|].
  destruct Hhd as [|y l Hle]; constructor.
  assert (x ≠ y) by (intros ->; apply Hx, elem_of_cons; by left). lia.
Qed.

(** X16. The rows of [monthly_avg_df] are in strictly increasing order of
    month. *)
Theorem monthly_rows_chronological dates usd filled :
  ∃ months avgs,
    make_monthly_avg_df (daily_frame dates usd filled) = Ok (monthly_frame months avgs) ∧
    Sorted Z.lt months.
Proof.
  eexists _, _. split; [apply make_monthly_avg_df_eq|].
  apply Sorted_le_NoDup_lt; [|apply NoDup_group_keys].
  unfold group_keys. apply (Sorted_merge_sort Z.le).
Qed.




(** X18. After [df[l] = c] (lines 50, 55 and 58) the column [l] is [c] and
    every other column is as before; a new label is added last and an
    existing one keeps its place. Reading a label that is no column
    raises [KeyError]. *)
Theorem setitem_getitem df l c :
  getitem (setitem df l c) l = Ok c ∧
  (∀ l', l' ≠ l → getitem (setitem df l c) l' = getitem df l') ∧
  columns (setitem df l c) = (if decide (l ∈ columns df) then columns df else columns df ++ [l]) ∧
  (∀ l', l' ∉ columns df ↔ getitem df l' = Err (KeyError l')).
Proof.
  split; [|split; [|split]].
  - induction df as [|[l0 c0] df IH]; simpl; [by rewrite decide_True|].
    destruct (decide (l0 = l)) as [->|Hne]; simpl.
    + by rewrite decide_True.
    + by rewrite decide_False.
  - intros l' Hl'. induction df as [|[l0 c0] df IH]; simpl.
    + by rewrite decide_False.
    + destruct (decide (l0 = l)) as [->|Hne]; simpl.
      * by rewrite !decide_False by done.
      * destruct (decide (l0 = l')); [done|]. apply IH.
  - induction df as [|[l0 c0] df IH]; [done|]. cbn [setitem].
    destruct (decide (l0 = l)) as [->|Hne].
    + rewrite decide_True; [done|]. apply elem_of_cons. by left.
    + unfold columns in *. csimpl. rewrite IH.
      destruct (decide (l ∈ df.*1)) as [Hin|Hnin].
      * rewrite decide_True; [done|]. apply elem_of_cons. by right.
      * rewrite decide_False; [done|]. intros [->|?]%elem_of_cons; done.
  - intros l'. induction df as [|[l0 c0] df IH]; simpl.
    + split; [done|]. intros _ Hin. by apply elem_of_nil in Hin.
    + unfold columns in *. csimpl. rewrite not_elem_of_cons.
      destruct (decide (l0 = l')) as [->|Hne].
      * split; [by intros [? _]|done].
      * rewrite <-IH. split; [by intros [_ ?]|by intros ?].
Qed.

End labels.


(** ** The order of the feed (lines 22-46) *)

Section order.

Variable to_datetime : string → result Z.

Implicit Types (data : list (string * float)) (ds : list Z) (rows : list (Z * float)).





End order.

